(** * GoBarber mobile: the Profile screen

    A shallow embedding of [src/pages/Profile/index.tsx]: the Yup schema of
    the profile form, the payload sent to [PUT /profile], the submission
    handler [handleProfile] with its [try]/[catch], and the two avatar
    handlers [updatePhotoFromCamera] and [updatePhotoFromGallery].

    JavaScript strings are [string]; objects used as dictionaries (the
    request body, the field-error object given to the form) are
    [gmap string string]; the calls made to the collaborators of the screen
    (HTTP client, session store, alerts, navigation, image picker) are
    recorded, in order, in a log carried by the state. *)

From Stdlib Require Import QArith Ascii.
From stdpp Require Import gmap strings list fin_maps.

Open Scope string_scope.
Open Scope list_scope.

(** Method chaining: [s |> f |> g] is the source's [s.f(..).g(..)]. *)
Notation "x |> f" := (f x) (at level 45, left associativity, only parsing).

(** ** JavaScript truthiness of the two kinds of value the screen tests *)

(** A number is truthy unless it is zero: [!!val.length]. *)
Definition truthy_number (n : nat) : bool := negb (n =? 0)%nat.

(** A string is truthy unless it is empty: [old_password ? .. : ..]. *)
Definition truthy_string (s : string) : bool :=
  match s with
  | EmptyString => false
  | String _ _ => true
  end.

(** ** The part of Yup the schema uses

    Yup is a collaborator of the screen, not part of it; this module fixes
    the contract of the six builders the schema calls ([string], [required],
    [email], [when], [oneOf], [ref]) and of [validate] with
    [abortEarly: false], over an object whose properties are strings.
    [K] is the type of the object's keys and [parent] reads a property. *)
Module Yup.
Section Schema.
Context {K : Type}.

(** A test added with [schema.test(..)]: adding an exclusive test replaces
  the tests of the same name. *)
Record Test := {
test_name : String.string;
test_exclusive : bool;
test_message : String.string;
test_fn : String.string -> bool
}.

(** An element of a [oneOf] list: a literal or a reference to a sibling. *)
Inductive Enum :=
| lit (value : String.string)
| ref (key : K).

Inductive Schema :=
| MkSchema (tests : list Test) (whitelist : list Enum)
         (whitelistError : option String.string)
         (conditions : list Condition)
with Condition :=
| MkCondition (key : K) (is_ : String.string -> bool)
            (then_ otherwise : Schema).

Definition tests (s : Schema) : list Test :=
match s with MkSchema ts _ _ _ => ts end.
Definition whitelist (s : Schema) : list Enum :=
match s with MkSchema _ wl _ _ => wl end.
Definition whitelistError (s : Schema) : option String.string :=
match s with MkSchema _ _ we _ => we end.
Definition conditions (s : Schema) : list Condition :=
match s with MkSchema _ _ _ cs => cs end.

(** The options object of [when]. *)
Record WhenOptions := {
is_ : String.string -> bool;
then_ : Schema;
otherwise : Schema
}.

Definition add_test (t : Test) (ts : list Test) : list Test :=
(if test_exclusive t
 then filter (fun t' => negb (String.eqb (test_name t') (test_name t))) ts
 else ts) ++ [t].

Definition test (t : Test) (s : Schema) : Schema :=
MkSchema (add_test t (tests s)) (whitelist s) (whitelistError s)
         (conditions s).

(** [string().required(message)]: present and of non-zero length. *)
Definition required (message : String.string) : Schema -> Schema :=
test {| test_name := "required"; test_exclusive := true;
        test_message := message;
        test_fn := fun value => truthy_number (String.length value) |}.

(** [string().email(message)] is [matches(rEmail, ..)] with
  [excludeEmptyString: true]: the empty string passes. [rEmail] is
  Yup's regular expression for e-mail addresses, as a matcher. *)
Definition email (rEmail : String.string -> bool) (message : String.string)
: Schema -> Schema :=
test {| test_name := "email"; test_exclusive := false;
        test_message := message;
        test_fn := fun value =>
          if String.eqb value "" then true else rEmail value |}.

Definition oneOf (enums : list Enum) (message : String.string) (s : Schema)
: Schema :=
MkSchema (tests s) (whitelist s ++ enums) (Some message) (conditions s).

Definition when (key : K) (options : WhenOptions) (s : Schema) : Schema :=
MkSchema (tests s) (whitelist s) (whitelistError s)
         (conditions s ++
          [MkCondition key (is_ options) (then_ options)
                       (otherwise options)]).

(** [base.concat(other)]: the tests of [other] are added to those of
  [base], the lists of allowed values are merged, and a setting of
  [other] wins where both have one. Both are already resolved. *)
Definition concat (base other : Schema) : Schema :=
MkSchema (fold_left (fun ts t => add_test t ts) (tests other) (tests base))
         (whitelist base ++ whitelist other)
         (match whitelistError other with
          | Some e => Some e
          | None => whitelistError base
          end)
         [].

Section Resolve.
Variable parent : K -> String.string.

(** [schema.resolve({parent})]: each condition, in order, concatenates
  the branch chosen by [is(parent[key])] onto the schema. *)
Fixpoint resolve (s : Schema) : Schema :=
match s with
| MkSchema ts wl we cs =>
    (fix go (cs : list Condition) (acc : Schema) : Schema :=
       match cs with
       | [] => acc
       | MkCondition key is_ then_ otherwise :: cs' =>
           go cs' (concat acc
                     (resolve (if is_ (parent key)
                               then then_ else otherwise)))
       end) cs (MkSchema ts wl we [])
end.

Definition enum_value (e : Enum) : String.string :=
match e with
| lit v => v
| ref key => parent key
end.

(** The messages of one property. The [oneOf] check runs first; the
  tests run only when it passes, and then all of them run. (Some releases
  of Yup run the tests after a failed [oneOf] as well: a property with
  both, here [password_confirmation] when it is empty, differs from
  [password] and [old_password] is set, then gets a second message. Which
  properties have an error, and validity, are the same either way.) *)
Definition validate_value (s : Schema) (value : String.string)
: list String.string :=
let r := resolve s in
let initial :=
  match whitelistError r with
  | Some message =>
      if existsb (fun e => String.eqb (enum_value e) value) (whitelist r)
      then [] else [message]
  | None => []
  end in
match initial with
| [] =>
    flat_map (fun t => if test_fn t value then [] else [test_message t])
             (tests r)
| _ :: _ => initial
end.

(** [object().shape(fields).validate(parent, {abortEarly: false})]:
  the [inner] errors, each a path and a message. The promise resolves
  when this list is empty and is rejected with a [ValidationError]
  carrying it otherwise. The errors are listed here by the shape's keys;
  Yup orders them by its own sort of the fields (a field that refers to
  another may come before it), so the statements below read the list
  path by path, with [messages_of], and none depends on the order. *)
Definition validate (path : K -> String.string)
         (shape : list (K * Schema))
: list (String.string * String.string) :=
flat_map (fun '(key, s) =>
            map (fun message => (path key, message))
                (validate_value s (parent key)))
         shape.
End Resolve.

Definition string : Schema := MkSchema [] [] None [].
End Schema.

Arguments Schema : clear implicits.
Arguments Condition : clear implicits.
Arguments WhenOptions : clear implicits.
Arguments Enum : clear implicits.
End Yup.

(** ** The form data *)

Record ProfileFormData := {
  name : string;
  email : string;
  old_password : string;
  password : string;
  password_confirmation : string
}.

(** [keyof ProfileFormData]. *)
Inductive Key :=
| k_name
| k_email
| k_old_password
| k_password
| k_password_confirmation.

Definition key_path (k : Key) : string :=
  match k with
  | k_name => "name"
  | k_email => "email"
  | k_old_password => "old_password"
  | k_password => "password"
  | k_password_confirmation => "password_confirmation"
  end.

(** [data[k]]. *)
Definition prop (data : ProfileFormData) (k : Key) : string :=
  match k with
  | k_name => name data
  | k_email => email data
  | k_old_password => old_password data
  | k_password => password data
  | k_password_confirmation => password_confirmation data
  end.

Section ProfileSchema.
(** Yup's e-mail regular expression. *)
Variable rEmail : string -> bool.

(** The schema of [handleProfile], lines 67 to 85. *)
Definition schema : list (Key * Yup.Schema Key) := [
  (k_name, Yup.string |> Yup.required "Nome obrigatório");
  (k_email, Yup.string
              |> Yup.required "E-mail obrigatório"
              |> Yup.email rEmail "Digite um e-mail válido");
  (k_old_password, Yup.string);
  (k_password,
     Yup.string |> Yup.when k_old_password {|
       Yup.is_ := fun val => negb (negb (truthy_number (String.length val)));
       Yup.then_ := Yup.string |> Yup.required "Campo obrigatório";
       Yup.otherwise := Yup.string |});
  (k_password_confirmation,
     Yup.string
       |> Yup.when k_old_password {|
            Yup.is_ := fun val =>
              negb (negb (truthy_number (String.length val)));
            Yup.then_ := Yup.string |> Yup.required "Campo obrigatório";
            Yup.otherwise := Yup.string |}
       |> Yup.oneOf [Yup.ref k_password] "Confirmação incorreta")
].

(** [schema.validate(data, {abortEarly: false})]: the inner errors. *)
Definition validation_errors (data : ProfileFormData)
  : list (string * string) :=
  Yup.validate (prop data) key_path schema.
End ProfileSchema.

(** ** Collaborators: session user, HTTP client, image picker *)

(** The session user, and the body of both HTTP responses. *)
Module User.
Record t := {
  id : string;
  name : string;
  email : string;
  avatar_url : string
}.
End User.

(** A file part of a multipart body, as React Native's [FormData] takes
    it; [uri] is [undefined] when the picker's response has none. *)
Module File.
Record t := {
  type : string;
  name : string;
  uri : option string
}.
End File.

(** [new FormData()] and [data.append(field, part)]. *)
Definition FormData := list (string * File.t).
Definition FormData_new : FormData := [].
Definition FormData_append (field : string) (part : File.t) (data : FormData)
  : FormData := data ++ [(field, part)].

Module ImagePicker.
Record Options := {
  mediaType : string;
  saveToPhotos : option bool;
  quality : Q
}.

(** What the picker passes to the callback: [didCancel] is set when the
    user dismissed the picker, [uri] when a photo was taken or chosen. *)
Record Response := {
  didCancel : bool;
  uri : option string
}.
End ImagePicker.

(** The outcome of a request to the backend. *)
Inductive Reply :=
| Resolved (data : User.t)
| Rejected (reason : string).

(** What can be thrown inside the handlers: Yup's [ValidationError] with its
    [inner] errors, or the rejection of a request by the HTTP client (which
    is never a [ValidationError]). *)
Inductive exn :=
| ValidationError (inner : list (string * string))
| RequestError (reason : string).

(** The effects of the handlers, as the calls appear in the source. *)
Module Call.
Inductive t :=
| formRef_setErrors (errors : gmap string string)
| api_put (url : string) (body : gmap string string)
| api_patch (url : string) (body : FormData)
| updateUser (data : User.t)
| Alert_alert (title : string) (message : option string)
| navigation_goBack
| setShowModalUpdateAvatar (value : bool)
| ImagePicker_launchCamera (options : ImagePicker.Options)
| ImagePicker_launchImageLibrary (options : ImagePicker.Options).
End Call.

(** ** The state of the screen *)

(** The mounted form: the values typed in the inputs and the error shown
    under each. *)
Record FormHandles := {
  fieldValues : ProfileFormData;
  fieldErrors : gmap string string
}.

(** [calls] is the log of the effects performed so far, oldest first. *)
Record World := {
  formRef_current : option FormHandles;
  user : User.t;
  showModalUpdateAvatar : bool;
  calls : list Call.t
}.

(** ** Asynchronous handlers: state and exceptions

    An [async] function is run to completion: every [await] is a sequencing
    point and a rejected promise is a thrown exception. *)
Definition M (A : Type) : Type := World -> (exn + A) * World.

#[global] Instance M_ret : MRet M := fun A a w => (inr a, w).

#[global] Instance M_bind : MBind M := fun A B f m w =>
  match m w with
  | (inr a, w') => f a w'
  | (inl e, w') => (inl e, w')
  end.

Definition throw {A} (e : exn) : M A := fun w => (inl e, w).

Definition try_catch {A} (body : M A) (handler : exn -> M A) : M A := fun w =>
  match body w with
  | (inl e, w') => handler e w'
  | (inr a, w') => (inr a, w')
  end.

Definition log (c : Call.t) (w : World) : World :=
  {| formRef_current := formRef_current w; user := user w;
     showModalUpdateAvatar := showModalUpdateAvatar w;
     calls := calls w ++ [c] |}.

(** [formRef.current?.setErrors(errors)]: the form replaces the error of
    every field; the call is skipped when the ref is not attached. *)
Definition formRef_current_setErrors (errors : gmap string string) : M unit :=
  fun w =>
    match formRef_current w with
    | Some form =>
        (inr tt,
         log (Call.formRef_setErrors errors)
           {| formRef_current := Some {| fieldValues := fieldValues form;
                                         fieldErrors := errors |};
              user := user w;
              showModalUpdateAvatar := showModalUpdateAvatar w;
              calls := calls w |})
    | None => (inr tt, w)
    end.

(** Modelled from the spec: [updateUser] comes from the auth hook, which is
    not among the sources. Section 6 gives the session store "a replace
    operation (write) that takes a full user record". *)
Definition updateUser (data : User.t) : M unit := fun w =>
  (inr tt,
   log (Call.updateUser data)
     {| formRef_current := formRef_current w; user := data;
        showModalUpdateAvatar := showModalUpdateAvatar w;
        calls := calls w |}).

Definition setShowModalUpdateAvatar (value : bool) : M unit := fun w =>
  (inr tt,
   log (Call.setShowModalUpdateAvatar value)
     {| formRef_current := formRef_current w; user := user w;
        showModalUpdateAvatar := value; calls := calls w |}).

Definition Alert_alert (title : string) (message : option string) : M unit :=
  fun w => (inr tt, log (Call.Alert_alert title message) w).

Definition navigation_goBack : M unit :=
  fun w => (inr tt, log Call.navigation_goBack w).

Definition ImagePicker_launchCamera (options : ImagePicker.Options) : M unit :=
  fun w => (inr tt, log (Call.ImagePicker_launchCamera options) w).

Definition ImagePicker_launchImageLibrary (options : ImagePicker.Options)
  : M unit :=
  fun w => (inr tt, log (Call.ImagePicker_launchImageLibrary options) w).

(** Object spread: the properties of [source] are written over those of
    [target]. *)
Definition spread (target source : gmap string string) : gmap string string :=
  source ∪ target.

(** Modelled from the spec: [utils/getValidationErrors] is imported by the
    screen but is not among the sources. Section 4.1 describes its result
    as "a mapping from field name to first failing error message". *)
Fixpoint getValidationErrors (inner : list (string * string))
  : gmap string string :=
  match inner with
  | [] => ∅
  | (path, message) :: rest => <[path := message]> (getValidationErrors rest)
  end.

(** ** The handlers of the screen *)

(** The body built for [PUT /profile], lines 91 to 109. *)
Definition formData (data : ProfileFormData) : gmap string string :=
  let name := name data in
  let email := email data in
  let old_password := old_password data in
  let password := password data in
  let password_confirmation := password_confirmation data in
  spread {[ "name" := name; "email" := email ]}
         (if truthy_string old_password
          then {[ "old_password" := old_password;
                  "password" := password;
                  "password_confirmation" := password_confirmation ]}
          else ∅).

Section Handlers.
Variable rEmail : string -> bool.

(** The backend: what it answers to each request. *)
Variable backend_put : string -> gmap string string -> Reply.
Variable backend_patch : string -> FormData -> Reply.

Definition settle (r : Reply) : M User.t :=
  match r with
  | Resolved data => mret data
  | Rejected reason => throw (RequestError reason)
  end.

(** Modelled from the spec: [api] is the HTTP client of [services/api],
    which is not among the sources. By section 6 a request either returns
    the full updated user record as its response body or fails; here
    [await api.put(url, body)] and [await api.patch(url, body)] log the
    request and give [response.data] or throw. *)
Definition api_put (url : string) (body : gmap string string) : M User.t :=
  (fun w => (inr tt, log (Call.api_put url body) w));;
  settle (backend_put url body).

Definition api_patch (url : string) (body : FormData) : M User.t :=
  (fun w => (inr tt, log (Call.api_patch url body) w));;
  settle (backend_patch url body).

(** [await schema.validate(data, {abortEarly: false})]. *)
Definition schema_validate (data : ProfileFormData) : M unit :=
  match validation_errors rEmail data with
  | [] => mret tt
  | inner => throw (ValidationError inner)
  end.

Definition handleProfile (data : ProfileFormData) : M unit :=
  try_catch
    (formRef_current_setErrors ∅;;
     schema_validate data;;
     response ← api_put "/profile" (formData data);
     updateUser response;;
     Alert_alert "Perfil atualizado com sucesso!" None;;
     navigation_goBack)
    (fun err =>
       match err with
       | ValidationError inner =>
           let errors := getValidationErrors inner in
           formRef_current_setErrors errors
       | _ =>
           Alert_alert
             "Erro na atualização do perfil"
             (Some "Ocorreu um erro ao atualizar seu perfil, tente novamente.")
       end).

(** [toggleModal] closes over the [showModalUpdateAvatar] of the render
    it was created in. *)
Definition toggleModal (showModalUpdateAvatar : bool) : M unit :=
  setShowModalUpdateAvatar (negb showModalUpdateAvatar).

(** The callback given to [launchCamera], lines 151 to 164; [user_id] and
    [toggleModal] are the values it closes over. *)
Definition camera_callback (user_id : string) (toggleModal : M unit)
           (response : ImagePicker.Response) : M unit :=
  let data := FormData_new in
  let data :=
    FormData_append "avatar"
      {| File.type := "image/jpeg";
         File.name := user_id +:+ ".jpg";
         File.uri := ImagePicker.uri response |} data in
  apiResponse ← api_patch "users/avatar" data;
  updateUser apiResponse;;
  toggleModal.

(** The callback given to [launchImageLibrary], lines 174 to 187. *)
Definition gallery_callback (user_id : string) (toggleModal : M unit)
           (response : ImagePicker.Response) : M unit :=
  let data := FormData_new in
  let data :=
    FormData_append "avatar"
      {| File.type := "image/jpeg";
         File.name := user_id +:+ ".jpg";
         File.uri := ImagePicker.uri response |} data in
  apiResponse ← api_patch "users/avatar" data;
  updateUser apiResponse;;
  toggleModal.

(** [updatePhotoFromCamera]: the picker is launched and invokes the
    callback with [response]. The closures are those of the render in
    which the button was pressed. *)
Definition updatePhotoFromCamera (response : ImagePicker.Response)
  : M unit := fun w =>
  let user_id := User.id (user w) in
  let toggleModal := toggleModal (showModalUpdateAvatar w) in
  (ImagePicker_launchCamera
     {| ImagePicker.mediaType := "photo";
        ImagePicker.saveToPhotos := Some true;
        ImagePicker.quality := 0.5 |};;
   camera_callback user_id toggleModal response) w.

Definition updatePhotoFromGallery (response : ImagePicker.Response)
  : M unit := fun w =>
  let user_id := User.id (user w) in
  let toggleModal := toggleModal (showModalUpdateAvatar w) in
  (ImagePicker_launchImageLibrary
     {| ImagePicker.mediaType := "photo";
        ImagePicker.saveToPhotos := None;
        ImagePicker.quality := 0.5 |};;
   gallery_callback user_id toggleModal response) w.
End Handlers.

(** ** What the statements below observe *)

(** The data is judged valid when [schema.validate] resolves. *)
Definition valid (rEmail : string -> bool) (d : ProfileFormData) : Prop :=
  validation_errors rEmail d = [].

(** The messages an error list holds for one path, in order. *)
Definition messages_of (path : string) (inner : list (string * string))
  : list string :=
  map snd (filter (fun e => e.1 = path) inner).

Definition all_keys : list Key :=
  [k_name; k_email; k_old_password; k_password; k_password_confirmation].

(** The messages of each field in closed form. *)
Definition name_messages (d : ProfileFormData) : list string :=
  if truthy_string (name d) then [] else ["Nome obrigatório"].

Definition email_messages (rEmail : string -> bool) (d : ProfileFormData)
  : list string :=
  if truthy_string (email d)
  then (if rEmail (email d) then [] else ["Digite um e-mail válido"])
  else ["E-mail obrigatório"].

Definition password_messages (d : ProfileFormData) : list string :=
  if truthy_string (old_password d) && negb (truthy_string (password d))
  then ["Campo obrigatório"] else [].

Definition password_confirmation_messages (d : ProfileFormData) : list string :=
  if String.eqb (password d) (password_confirmation d)
  then (if truthy_string (old_password d)
           && negb (truthy_string (password_confirmation d))
        then ["Campo obrigatório"] else [])
  else ["Confirmação incorreta"].

Definition field_messages (rEmail : string -> bool) (d : ProfileFormData)
           (k : Key) : list string :=
  match k with
  | k_name => name_messages d
  | k_email => email_messages rEmail d
  | k_old_password => []
  | k_password => password_messages d
  | k_password_confirmation => password_confirmation_messages d
  end.

(** The state after [formRef.current?.setErrors({})], and what that call
    adds to the log. *)
Definition reset (w : World) : World := (formRef_current_setErrors ∅ w).2.

Definition reset_log (w : World) : list Call.t :=
  match formRef_current w with
  | Some _ => [Call.formRef_setErrors ∅]
  | None => []
  end.

(** The alerts and the requests of a log, in order. *)
Definition alerts_of (cs : list Call.t) : list (string * option string) :=
  flat_map (fun c => match c with
                     | Call.Alert_alert t m => [(t, m)]
                     | _ => []
                     end) cs.

Definition requests_of (cs : list Call.t) : list Call.t :=
  flat_map (fun c => match c with
                     | Call.api_put _ _ | Call.api_patch _ _ => [c]
                     | _ => []
                     end) cs.

Definition failure_alert : string * option string :=
  ("Erro na atualização do perfil",
   Some "Ocorreu um erro ao atualizar seu perfil, tente novamente.").

Definition success_alert : string * option string :=
  ("Perfil atualizado com sucesso!", None).

Definition camera_options : ImagePicker.Options :=
  {| ImagePicker.mediaType := "photo";
     ImagePicker.saveToPhotos := Some true;
     ImagePicker.quality := 0.5 |}.

Definition gallery_options : ImagePicker.Options :=
  {| ImagePicker.mediaType := "photo";
     ImagePicker.saveToPhotos := None;
     ImagePicker.quality := 0.5 |}.

(** The multipart body both callbacks build. *)
Definition avatar_body (user_id : string) (uri : option string) : FormData :=
  [("avatar", {| File.type := "image/jpeg";
                 File.name := user_id +:+ ".jpg";
                 File.uri := uri |})].

(** The outcome of a callback that started in [w0] and closed over the
    render of [w], according to the backend's answer. *)
Definition after_upload (w w0 : World) (body : FormData) (r : Reply)
  : (exn + unit) * World :=
  match r with
  | Resolved data =>
      (inr tt,
       {| formRef_current := formRef_current w0;
          user := data;
          showModalUpdateAvatar := negb (showModalUpdateAvatar w);
          calls := calls w0 ++
                   [Call.api_patch "users/avatar" body;
                    Call.updateUser data;
                    Call.setShowModalUpdateAvatar
                      (negb (showModalUpdateAvatar w))] |})
  | Rejected reason =>
      (inl (RequestError reason),
       log (Call.api_patch "users/avatar" body) w0)
  end.

(** ** Sample values for the examples *)

(** A stand-in for Yup's expression: the address has an [@]. *)
Fixpoint sample_rEmail (s : string) : bool :=
  match s with
  | EmptyString => false
  | String c rest => Ascii.eqb c "@" || sample_rEmail rest
  end.

Definition ana : ProfileFormData :=
  {| name := "Ana"; email := "ana@x.com"; old_password := "";
     password := ""; password_confirmation := "" |}.

Definition ana_new_password : ProfileFormData :=
  {| name := "Ana"; email := "ana@x.com"; old_password := "123";
     password := "new1"; password_confirmation := "new1" |}.

Definition ana_user : User.t :=
  {| User.id := "7"; User.name := "Ana"; User.email := "ana@x.com";
     User.avatar_url := "http://x.com/7.jpg" |}.

Definition ana_updated : User.t :=
  {| User.id := "7"; User.name := "Ana Lima"; User.email := "ana@x.com";
     User.avatar_url := "http://x.com/7-new.jpg" |}.

(** The screen with the form mounted, showing an error left by an earlier
    attempt, and the avatar modal open. *)
Definition sample_world : World :=
  {| formRef_current :=
       Some {| fieldValues := ana;
               fieldErrors := {[ "name" := "Nome obrigatório" ]} |};
     user := ana_user;
     showModalUpdateAvatar := true;
     calls := [] |}.

Definition backend_ok (url : string) (body : gmap string string) : Reply :=
  Resolved ana_updated.

Definition backend_down (url : string) (body : gmap string string) : Reply :=
  Rejected "Network Error".

Definition avatar_backend_ok (url : string) (body : FormData) : Reply :=
  Resolved ana_updated.

Definition avatar_backend_down (url : string) (body : FormData) : Reply :=
  Rejected "Request failed with status code 500".

Definition photo_taken : ImagePicker.Response :=
  {| ImagePicker.didCancel := false;
     ImagePicker.uri := Some "file:///tmp/photo.png" |}.

Definition picker_cancelled : ImagePicker.Response :=
  {| ImagePicker.didCancel := true; ImagePicker.uri := None |}.

(** ** The modal's button handler, and handlers with an event in between *)

(** [toggleModal] as the render of the state [w] binds it, lines 140 to
    142: what a press on the avatar or on "Cancelar" runs. *)
Definition onPress_toggleModal : M unit := fun w =>
  toggleModal (showModalUpdateAvatar w) w.

Section Suspended.
Variable backend_patch : string -> FormData -> Reply.

(** [between] is what other handlers do while the callback is suspended at
    [await api.patch(..)]: the request has been sent, its answer is not yet
    there. *)
Variable between : M unit.

Definition api_patch_during (url : string) (body : FormData) : M User.t :=
  (fun w => (inr tt, log (Call.api_patch url body) w));;
  between;;
  settle (backend_patch url body).

(** The callback of lines 151 to 164 with its suspension point. *)
Definition camera_callback_during (user_id : string) (toggleModal : M unit)
           (response : ImagePicker.Response) : M unit :=
  let data := FormData_new in
  let data :=
    FormData_append "avatar"
      {| File.type := "image/jpeg";
         File.name := user_id +:+ ".jpg";
         File.uri := ImagePicker.uri response |} data in
  apiResponse ← api_patch_during "users/avatar" data;
  updateUser apiResponse;;
  toggleModal.

(** [updatePhotoFromCamera], lines 144 to 166, with the same closures. *)
Definition updatePhotoFromCamera_during (response : ImagePicker.Response)
  : M unit := fun w =>
  let user_id := User.id (user w) in
  let toggleModal := toggleModal (showModalUpdateAvatar w) in
  (ImagePicker_launchCamera
     {| ImagePicker.mediaType := "photo";
        ImagePicker.saveToPhotos := Some true;
        ImagePicker.quality := 0.5 |};;
   camera_callback_during user_id toggleModal response) w.
End Suspended.

(** The calls to [navigation.goBack] of a log. *)
Definition navigations_of (cs : list Call.t) : list Call.t :=
  flat_map (fun c => match c with
                     | Call.navigation_goBack => [c]
                     | _ => []
                     end) cs.

(** What a valid submission adds to the alerts and to the navigation,
    according to the backend's answer. *)
Definition alert_for (r : Reply) : string * option string :=
  match r with
  | Resolved _ => success_alert
  | Rejected _ => failure_alert
  end.

Definition navigation_for (r : Reply) : list Call.t :=
  match r with
  | Resolved _ => [Call.navigation_goBack]
  | Rejected _ => []
  end.

(** ** More sample values *)

(** A new password typed without the current one. *)
Definition ana_without_old_password : ProfileFormData :=
  {| name := "Ana"; email := "ana@x.com"; old_password := "";
     password := "new1"; password_confirmation := "new1" |}.

Definition nameless : ProfileFormData :=
  {| name := ""; email := "ana@x.com"; old_password := "";
     password := ""; password_confirmation := "" |}.

(** The screen before the form ref is attached. *)
Definition sample_world_unmounted : World :=
  {| formRef_current := None;
     user := ana_user;
     showModalUpdateAvatar := false;
     calls := [] |}.

(** The screen with the avatar modal closed. *)
Definition sample_world_closed : World :=
  {| formRef_current := Some {| fieldValues := ana; fieldErrors := ∅ |};
     user := ana_user;
     showModalUpdateAvatar := false;
     calls := [] |}.

(** * The payload *)

(** C1. The body built for [PUT /profile] always holds [name] and [email]
    with the values of the input; each of [old_password], [password] and
    [password_confirmation] is a key of it exactly when [old_password] is
    not the empty string, and then all three hold the values of the input;
    when [old_password] is empty the body is exactly [{name, email}]. *)
Theorem formData_contents (d : ProfileFormData) :
  formData d !! "name" = Some (name d) ∧
  formData d !! "email" = Some (email d) ∧
  (∀ k, k ∈ ["old_password"; "password"; "password_confirmation"] ->
        (is_Some (formData d !! k) <-> old_password d ≠ "")) ∧
  (old_password d ≠ "" ->
     formData d !! "old_password" = Some (old_password d) ∧
     formData d !! "password" = Some (password d) ∧
     formData d !! "password_confirmation" = Some (password_confirmation d) ∧
     dom (formData d) = {[ "name"; "email"; "old_password"; "password";
                           "password_confirmation" ]}) ∧
  (old_password d = "" ->
     formData d = {[ "name" := name d; "email" := email d ]}).
Proof.
  unfold formData, spread.
  destruct (truthy_string (old_password d)) eqn:E.
  - assert (Ho : old_password d ≠ "") by (by destruct (old_password d)).
    split_and!; try done.
    intros k Hk.
    repeat (apply elem_of_cons in Hk as [-> | Hk]); try by eexists.
    by apply elem_of_nil in Hk.
  - assert (Ho : old_password d = "") by (by destruct (old_password d)).
    rewrite (left_id_L ∅ (∪)).
    split_and!; try done.
    intros k Hk. split; [| done].
    repeat (apply elem_of_cons in Hk as [-> | Hk]); try by intros [? [=]].
    by apply elem_of_nil in Hk.
Qed.

Example formData_ana : formData ana = {[ "name" := "Ana"; "email" := "ana@x.com" ]}.
Proof. reflexivity. Qed.

Example formData_ana_new_password :
  formData ana_new_password
  = {[ "name" := "Ana"; "email" := "ana@x.com"; "old_password" := "123";
       "password" := "new1"; "password_confirmation" := "new1" ]}.
Proof. reflexivity. Qed.

(** * Validation *)

Lemma truthy_length (s : string) :
  truthy_number (String.length s) = truthy_string s.
Proof. by destruct s. Qed.

Lemma truthy_string_true (s : string) : truthy_string s = true <-> s ≠ "".
Proof. destruct s; cbn; split; congruence. Qed.

Lemma truthy_string_false (s : string) : truthy_string s = false <-> s = "".
Proof. destruct s; cbn; split; congruence. Qed.

Lemma eqb_empty (s : string) : String.eqb s "" = negb (truthy_string s).
Proof. by destruct s. Qed.

(** Each property of the shape gets the messages of its closed form. *)
Lemma validate_value_field rEmail d k s :
  (k, s) ∈ schema rEmail ->
  Yup.validate_value (prop d) s (prop d k) = field_messages rEmail d k.
Proof.
  intros Hin. unfold schema in Hin.
  repeat (apply elem_of_cons in Hin as [Hin | Hin];
          [injection Hin as -> -> |]); [| | | | | by apply elem_of_nil in Hin].
  - unfold Yup.validate_value. cbn. rewrite truthy_length. unfold name_messages.
    by destruct (truthy_string (name d)).
  - unfold Yup.validate_value. cbn. rewrite truthy_length, eqb_empty.
    unfold email_messages.
    by destruct (truthy_string (email d)), (rEmail (email d)).
  - reflexivity.
  - unfold Yup.validate_value. cbn. rewrite !truthy_length.
    unfold password_messages.
    destruct (truthy_string (old_password d)); cbn; [| done].
    rewrite truthy_length. by destruct (truthy_string (password d)).
  - unfold Yup.validate_value. cbn -[String.eqb]. rewrite !truthy_length.
    unfold password_confirmation_messages.
    destruct (truthy_string (old_password d)); cbn -[String.eqb];
      destruct (String.eqb (password d) (password_confirmation d));
      cbn; try done.
    rewrite truthy_length. by destruct (truthy_string (password_confirmation d)).
Qed.

(** All five properties are validated, whatever the others give. *)
Lemma validation_errors_fields rEmail d :
  validation_errors rEmail d =
  flat_map (fun k => map (pair (key_path k)) (field_messages rEmail d k))
           all_keys.
Proof.
  assert (H : Forall (fun '(k, s) =>
                Yup.validate_value (prop d) s (prop d k)
                = field_messages rEmail d k) (schema rEmail)).
  { apply Forall_forall. intros [k s] Hin. by apply validate_value_field. }
  unfold validation_errors, Yup.validate, all_keys.
  unfold schema in *. cbn [flat_map].
  repeat (apply Forall_cons in H as [-> H]).
  reflexivity.
Qed.

Lemma messages_of_validation rEmail d k :
  messages_of (key_path k) (validation_errors rEmail d)
  = field_messages rEmail d k.
Proof.
  rewrite validation_errors_fields.
  unfold all_keys, field_messages, name_messages, email_messages,
    password_messages, password_confirmation_messages.
  destruct k;
    destruct (truthy_string (name d)), (truthy_string (email d)),
      (rEmail (email d)), (truthy_string (old_password d)),
      (truthy_string (password d)),
      (truthy_string (password_confirmation d)),
      (String.eqb (password d) (password_confirmation d));
    reflexivity.
Qed.

Lemma valid_fields rEmail d :
  valid rEmail d <-> forall k, field_messages rEmail d k = [].
Proof.
  unfold valid. split.
  - intros H k. by rewrite <- messages_of_validation, H.
  - intros H. rewrite validation_errors_fields. unfold all_keys.
    cbn -[field_messages]. by rewrite !H.
Qed.

Lemma valid_iff rEmail d :
  valid rEmail d <->
  name d ≠ "" ∧ email d ≠ "" ∧ rEmail (email d) = true ∧
  (old_password d ≠ "" -> password d ≠ "" ∧ password_confirmation d ≠ "") ∧
  password_confirmation d = password d.
Proof.
  rewrite valid_fields. split.
  - intros H.
    pose proof (H k_name) as Hn. pose proof (H k_email) as He.
    pose proof (H k_password) as Hp.
    pose proof (H k_password_confirmation) as Hc.
    cbn in Hn, He, Hp, Hc.
    unfold name_messages, email_messages, password_messages,
      password_confirmation_messages in *.
    rewrite <- !truthy_string_true.
    destruct (truthy_string (name d)), (truthy_string (email d)),
      (rEmail (email d)), (truthy_string (old_password d)),
      (truthy_string (password d)),
      (truthy_string (password_confirmation d)),
      (String.eqb (password d) (password_confirmation d)) eqn:E;
      try discriminate; apply String.eqb_eq in E;
      repeat split; auto; discriminate.
  - intros (Hn & He & Hr & Hreq & Heq) k.
    apply truthy_string_true in Hn, He.
    assert (Hb : truthy_string (old_password d) = true ->
                 truthy_string (password d) = true ∧
                 truthy_string (password_confirmation d) = true).
    { rewrite !truthy_string_true. exact Hreq. }
    destruct k; cbn;
      unfold name_messages, email_messages, password_messages,
        password_confirmation_messages.
    + by rewrite Hn.
    + by rewrite He, Hr.
    + done.
    + destruct (truthy_string (old_password d)); [| done].
      by destruct Hb as [-> _].
    + rewrite <- Heq, String.eqb_refl.
      destruct (truthy_string (old_password d)); [| done].
      by destruct Hb as [_ ->].
Qed.

(** No field ever gets two messages, so an error object keyed by path
    loses none of them. *)
Lemma field_messages_at_most_one rEmail d k :
  (List.length (field_messages rEmail d k) ≤ 1)%nat.
Proof.
  destruct k; cbn;
    unfold name_messages, email_messages, password_messages,
      password_confirmation_messages;
    repeat case_match; cbn; lia.
Qed.

(** The three scenarios of the spec's section 8. *)
Example validation_ana : validation_errors sample_rEmail ana = [].
Proof. reflexivity. Qed.

Example validation_mismatch :
  validation_errors sample_rEmail
    {| name := "Ana"; email := "ana@x.com"; old_password := "123";
       password := "new1"; password_confirmation := "new2" |}
  = [("password_confirmation", "Confirmação incorreta")].
Proof. reflexivity. Qed.

Example validation_required_after_match :
  let inner :=
    validation_errors sample_rEmail
      {| name := "Ana"; email := "ana@x.com"; old_password := "123";
         password := ""; password_confirmation := "" |} in
  messages_of "password" inner = ["Campo obrigatório"] ∧
  messages_of "password_confirmation" inner = ["Campo obrigatório"] ∧
  List.length inner = 2%nat.
Proof. by split_and!. Qed.

(** C2. With [old_password] empty, [password] never gets a message, and
    [password_confirmation] never gets the required one: it
    gets none when it equals [password] (both may be
    empty: with a name and a valid e-mail the data is then valid); when
    [password_confirmation] differs from [password] its only message is the
    mismatch one and the data is invalid. *)
Theorem validation_without_old_password rEmail (d : ProfileFormData) :
  old_password d = "" ->
  messages_of "password" (validation_errors rEmail d) = [] ∧
  ("Campo obrigatório"
     ∉ messages_of "password_confirmation" (validation_errors rEmail d)) ∧
  (password_confirmation d = password d ->
     messages_of "password_confirmation" (validation_errors rEmail d) = []) ∧
  (name d ≠ "" -> email d ≠ "" -> rEmail (email d) = true ->
   password_confirmation d = password d -> valid rEmail d) ∧
  (password_confirmation d ≠ password d ->
     messages_of "password_confirmation" (validation_errors rEmail d)
     = ["Confirmação incorreta"] ∧
     ¬ valid rEmail d).
Proof.
  intros Ho.
  pose proof (messages_of_validation rEmail d k_password) as Hp.
  pose proof (messages_of_validation rEmail d k_password_confirmation) as Hc.
  cbn [key_path field_messages] in Hp, Hc. rewrite Hp, Hc.
  unfold password_messages, password_confirmation_messages.
  rewrite Ho. cbn. split_and!.
  - done.
  - destruct (String.eqb (password d) (password_confirmation d));
      [apply not_elem_of_nil |].
    intros Hin. apply list_elem_of_singleton in Hin. discriminate.
  - intros ->. by rewrite String.eqb_refl.
  - intros Hn He Hr Heq. apply valid_iff. rewrite Ho. by split_and!.
  - intros Hne. split.
    + destruct (String.eqb_spec (password d) (password_confirmation d));
        [congruence | done].
    + rewrite valid_iff. tauto.
Qed.

Lemma validation_without_old_password_witness :
  old_password ana = "" ∧
  messages_of "password" (validation_errors sample_rEmail ana) = [] ∧
  ("Campo obrigatório"
     ∉ messages_of "password_confirmation"
         (validation_errors sample_rEmail ana)) ∧
  (password_confirmation ana = password ana ->
     messages_of "password_confirmation" (validation_errors sample_rEmail ana)
     = []) ∧
  (name ana ≠ "" -> email ana ≠ "" -> sample_rEmail (email ana) = true ->
   password_confirmation ana = password ana -> valid sample_rEmail ana) ∧
  (password_confirmation ana ≠ password ana ->
     messages_of "password_confirmation" (validation_errors sample_rEmail ana)
     = ["Confirmação incorreta"] ∧
     ¬ valid sample_rEmail ana).
Proof.
  split; [reflexivity |].
  apply (validation_without_old_password sample_rEmail ana). reflexivity.
Defined.

(** C3. With [old_password] not empty, the data is valid exactly when the
    name is not empty, the e-mail is not empty and matches, [password] and
    [password_confirmation] are not empty and [password_confirmation] equals
    [password]; an empty [password] gets the required message, an empty
    [password_confirmation] gets a message, and a [password_confirmation]
    that differs from [password] gets the mismatch message. *)
Theorem validation_with_old_password rEmail (d : ProfileFormData) :
  old_password d ≠ "" ->
  (valid rEmail d <->
   name d ≠ "" ∧ email d ≠ "" ∧ rEmail (email d) = true ∧
   password d ≠ "" ∧ password_confirmation d ≠ "" ∧
   password_confirmation d = password d) ∧
  (password d = "" ->
     messages_of "password" (validation_errors rEmail d)
     = ["Campo obrigatório"]) ∧
  (password_confirmation d = "" ->
     messages_of "password_confirmation" (validation_errors rEmail d) ≠ []) ∧
  (password_confirmation d ≠ password d ->
     messages_of "password_confirmation" (validation_errors rEmail d)
     = ["Confirmação incorreta"]).
Proof.
  intros Ho.
  pose proof (messages_of_validation rEmail d k_password) as Hp.
  pose proof (messages_of_validation rEmail d k_password_confirmation) as Hc.
  cbn [key_path field_messages] in Hp, Hc. rewrite Hp, Hc.
  unfold password_messages, password_confirmation_messages.
  apply truthy_string_true in Ho as Hb. rewrite Hb. cbn. split_and!.
  - rewrite valid_iff. tauto.
  - by intros ->.
  - intros ->. by destruct (String.eqb (password d) "").
  - intros Hne.
    destruct (String.eqb_spec (password d) (password_confirmation d));
      [congruence | done].
Qed.

Lemma validation_with_old_password_witness :
  old_password ana_new_password ≠ "" ∧
  (valid sample_rEmail ana_new_password <->
   name ana_new_password ≠ "" ∧ email ana_new_password ≠ "" ∧
   sample_rEmail (email ana_new_password) = true ∧
   password ana_new_password ≠ "" ∧
   password_confirmation ana_new_password ≠ "" ∧
   password_confirmation ana_new_password = password ana_new_password).
Proof.
  split; [discriminate |].
  apply (validation_with_old_password sample_rEmail ana_new_password).
  discriminate.
Defined.

(** * The submission handler *)

Lemma reset_calls w : calls (reset w) = calls w ++ reset_log w.
Proof.
  unfold reset, reset_log, formRef_current_setErrors.
  destruct (formRef_current w); cbn; [done | by rewrite app_nil_r].
Qed.

Lemma reset_user w : user (reset w) = user w.
Proof. unfold reset, formRef_current_setErrors. by destruct (formRef_current w). Qed.

Lemma reset_showModalUpdateAvatar w :
  showModalUpdateAvatar (reset w) = showModalUpdateAvatar w.
Proof. unfold reset, formRef_current_setErrors. by destruct (formRef_current w). Qed.

Lemma reset_formRef w :
  formRef_current (reset w)
  = (fun form => {| fieldValues := fieldValues form; fieldErrors := ∅ |})
      <$> formRef_current w.
Proof.
  unfold reset, formRef_current_setErrors.
  destruct (formRef_current w) eqn:E; cbn; [done |]. by rewrite E.
Qed.

Lemma alerts_of_app cs1 cs2 : alerts_of (cs1 ++ cs2) = alerts_of cs1 ++ alerts_of cs2.
Proof. apply flat_map_app. Qed.

Lemma requests_of_app cs1 cs2 :
  requests_of (cs1 ++ cs2) = requests_of cs1 ++ requests_of cs2.
Proof. apply flat_map_app. Qed.

Lemma alerts_of_reset_log w : alerts_of (reset_log w) = [].
Proof. unfold reset_log. by destruct (formRef_current w). Qed.

Lemma getValidationErrors_lookup inner path :
  getValidationErrors inner !! path = head (messages_of path inner).
Proof.
  unfold messages_of.
  induction inner as [| [p m] rest IH]; [done |].
  cbn [getValidationErrors]. rewrite filter_cons. cbn [fst].
  destruct (decide (p = path)) as [-> | Hne].
  - by rewrite lookup_insert_eq.
  - by rewrite lookup_insert_ne.
Qed.

(** The three ways through [handleProfile]. *)
Section HandleProfile.
Variable rEmail : string -> bool.
Variable backend_put : string -> gmap string string -> Reply.

Lemma schema_validate_valid d w :
  valid rEmail d -> schema_validate rEmail d w = (inr tt, w).
Proof. unfold valid, schema_validate. intros H. rewrite H. reflexivity. Qed.

Lemma schema_validate_invalid d w :
  ¬ valid rEmail d ->
  schema_validate rEmail d w
  = (inl (ValidationError (validation_errors rEmail d)), w).
Proof.
  unfold valid, schema_validate.
  by destruct (validation_errors rEmail d).
Qed.

Lemma handleProfile_invalid d w :
  ¬ valid rEmail d ->
  handleProfile rEmail backend_put d w
  = formRef_current_setErrors
      (getValidationErrors (validation_errors rEmail d)) (reset w).
Proof.
  intros H. unfold handleProfile, try_catch, reset.
  unfold mbind, M_bind.
  destruct (formRef_current_setErrors ∅ w) as [[e | []] w0] eqn:E0.
  { unfold formRef_current_setErrors in E0.
    by destruct (formRef_current w). }
  by rewrite schema_validate_invalid.
Qed.

Lemma handleProfile_rejected d w reason :
  valid rEmail d ->
  backend_put "/profile" (formData d) = Rejected reason ->
  handleProfile rEmail backend_put d w
  = (inr tt,
     log (Call.Alert_alert
            "Erro na atualização do perfil"
            (Some "Ocorreu um erro ao atualizar seu perfil, tente novamente."))
         (log (Call.api_put "/profile" (formData d)) (reset w))).
Proof.
  intros H Hr. unfold handleProfile, try_catch, reset.
  unfold mbind, M_bind.
  destruct (formRef_current_setErrors ∅ w) as [[e | []] w0] eqn:E0.
  { unfold formRef_current_setErrors in E0.
    by destruct (formRef_current w). }
  rewrite schema_validate_valid by done.
  unfold api_put, mbind, M_bind. by rewrite Hr.
Qed.

Lemma handleProfile_resolved d w data :
  valid rEmail d ->
  backend_put "/profile" (formData d) = Resolved data ->
  handleProfile rEmail backend_put d w
  = (inr tt,
     log Call.navigation_goBack
       (log (Call.Alert_alert "Perfil atualizado com sucesso!" None)
          (updateUser data
             (log (Call.api_put "/profile" (formData d)) (reset w))).2)).
Proof.
  intros H Hr. unfold handleProfile, try_catch, reset.
  unfold mbind, M_bind.
  destruct (formRef_current_setErrors ∅ w) as [[e | []] w0] eqn:E0.
  { unfold formRef_current_setErrors in E0.
    by destruct (formRef_current w). }
  rewrite schema_validate_valid by done.
  unfold api_put, mbind, M_bind. by rewrite Hr.
Qed.
End HandleProfile.

(** C4. When the data is invalid, [handleProfile] gives the mounted form an
    error object in which every field that fails has its message (all five
    fields are evaluated, none is skipped because an earlier one failed),
    and the log gains the two [setErrors] calls and no request. For
    [{name: "", email: "bad", old_password: "", password: "",
    password_confirmation: ""}], with an e-mail expression that rejects
    ["bad"], the form shows an error on both [name] and [email]. *)
Theorem handleProfile_validation_failed rEmail backend_put :
  (∀ d w form,
     formRef_current w = Some form ->
     ¬ valid rEmail d ->
     ∃ errors,
       handleProfile rEmail backend_put d w
       = (inr tt,
          {| formRef_current :=
               Some {| fieldValues := fieldValues form;
                       fieldErrors := errors |};
             user := user w;
             showModalUpdateAvatar := showModalUpdateAvatar w;
             calls := calls w ++ [Call.formRef_setErrors ∅;
                                  Call.formRef_setErrors errors] |}) ∧
       (∀ k, errors !! key_path k = head (field_messages rEmail d k)) ∧
       requests_of (calls w ++ [Call.formRef_setErrors ∅;
                                Call.formRef_setErrors errors])
       = requests_of (calls w)) ∧
  (rEmail "bad" = false ->
   let d := {| name := ""; email := "bad"; old_password := "";
               password := ""; password_confirmation := "" |} in
   let errors : gmap string string :=
     {[ "name" := "Nome obrigatório";
        "email" := "Digite um e-mail válido" ]} in
   ¬ valid rEmail d ∧
   ∀ w form,
     formRef_current w = Some form ->
     handleProfile rEmail backend_put d w
     = (inr tt,
        {| formRef_current :=
             Some {| fieldValues := fieldValues form;
                     fieldErrors := errors |};
           user := user w;
           showModalUpdateAvatar := showModalUpdateAvatar w;
           calls := calls w ++ [Call.formRef_setErrors ∅;
                                Call.formRef_setErrors errors] |})).
Proof.
  assert (Hrun : ∀ d w form,
    formRef_current w = Some form ->
    ¬ valid rEmail d ->
    handleProfile rEmail backend_put d w
    = (inr tt,
       {| formRef_current :=
            Some {| fieldValues := fieldValues form;
                    fieldErrors :=
                      getValidationErrors (validation_errors rEmail d) |};
          user := user w;
          showModalUpdateAvatar := showModalUpdateAvatar w;
          calls := calls w ++
                   [Call.formRef_setErrors ∅;
                    Call.formRef_setErrors
                      (getValidationErrors (validation_errors rEmail d))] |})).
  { intros d w form Hform Hinv. rewrite handleProfile_invalid by done.
    unfold reset, formRef_current_setErrors, log. rewrite Hform.
    cbn [formRef_current user showModalUpdateAvatar calls fieldValues snd].
    by rewrite <- app_assoc. }
  split.
  - intros d w form Hform Hinv.
    exists (getValidationErrors (validation_errors rEmail d)).
    split_and!.
    + by apply Hrun.
    + intros k. by rewrite getValidationErrors_lookup, messages_of_validation.
    + rewrite requests_of_app. cbn [requests_of flat_map app].
      by rewrite app_nil_r.
  - intros Hbad d errors.
    assert (Hd : validation_errors rEmail d
                 = [("name", "Nome obrigatório");
                    ("email", "Digite um e-mail válido")]).
    { unfold validation_errors, Yup.validate, Yup.validate_value. cbn.
      by rewrite Hbad. }
    assert (Hinv : ¬ valid rEmail d) by (unfold valid; by rewrite Hd).
    split; [done |]. intros w form Hform.
    rewrite (Hrun d w form Hform Hinv), Hd. reflexivity.
Qed.

Lemma handleProfile_validation_failed_witness :
  sample_rEmail "bad" = false ∧
  handleProfile sample_rEmail backend_ok
    {| name := ""; email := "bad"; old_password := "";
       password := ""; password_confirmation := "" |} sample_world
  = (inr tt,
     {| formRef_current :=
          Some {| fieldValues := ana;
                  fieldErrors :=
                    {[ "name" := "Nome obrigatório";
                       "email" := "Digite um e-mail válido" ]} |};
        user := ana_user;
        showModalUpdateAvatar := true;
        calls := [Call.formRef_setErrors ∅;
                  Call.formRef_setErrors
                    {[ "name" := "Nome obrigatório";
                       "email" := "Digite um e-mail válido" ]}] |}).
Proof.
  split; [reflexivity |].
  apply (proj2 (proj2 (handleProfile_validation_failed sample_rEmail
                         backend_ok) eq_refl)
               sample_world
               {| fieldValues := ana;
                  fieldErrors := {[ "name" := "Nome obrigatório" ]} |}).
  reflexivity.
Defined.

(** C5. When the data is valid and [PUT /profile] is rejected,
    [handleProfile] adds to the log the request and then one alert, the
    failure one, so the alerts grow by exactly that one; the session user,
    the values of the form's fields and the modal are as before. *)
Theorem handleProfile_request_failed rEmail backend_put d w reason :
  valid rEmail d ->
  backend_put "/profile" (formData d) = Rejected reason ->
  ∃ w',
    handleProfile rEmail backend_put d w = (inr tt, w') ∧
    calls w' = calls w ++ reset_log w ++
               [Call.api_put "/profile" (formData d);
                Call.Alert_alert failure_alert.1 failure_alert.2] ∧
    alerts_of (calls w') = alerts_of (calls w) ++ [failure_alert] ∧
    user w' = user w ∧
    fieldValues <$> formRef_current w' = fieldValues <$> formRef_current w ∧
    showModalUpdateAvatar w' = showModalUpdateAvatar w.
Proof.
  intros Hv Hr. eexists. split; [by eapply handleProfile_rejected |].
  cbn. rewrite reset_calls, reset_user, reset_showModalUpdateAvatar,
    reset_formRef.
  split_and!; try done.
  - by rewrite <- !app_assoc.
  - rewrite !alerts_of_app, alerts_of_reset_log. cbn.
    by rewrite !app_nil_r.
  - by destruct (formRef_current w).
Qed.

Lemma handleProfile_request_failed_witness :
  valid sample_rEmail ana ∧
  backend_down "/profile" (formData ana) = Rejected "Network Error" ∧
  ∃ w',
    handleProfile sample_rEmail backend_down ana sample_world = (inr tt, w') ∧
    calls w' = calls sample_world ++ reset_log sample_world ++
               [Call.api_put "/profile" (formData ana);
                Call.Alert_alert failure_alert.1 failure_alert.2] ∧
    alerts_of (calls w') = alerts_of (calls sample_world) ++ [failure_alert] ∧
    user w' = user sample_world ∧
    fieldValues <$> formRef_current w'
    = fieldValues <$> formRef_current sample_world ∧
    showModalUpdateAvatar w' = showModalUpdateAvatar sample_world.
Proof.
  split; [reflexivity |]. split; [reflexivity |].
  apply (handleProfile_request_failed sample_rEmail backend_down ana
           sample_world "Network Error"); reflexivity.
Defined.

(** C6. When the data is valid and [PUT /profile] resolves with [data],
    [handleProfile] adds to the log, after the request and in this order,
    each once: [updateUser(data)], the success alert, [goBack()]; the
    session user is then [data]. *)
Theorem handleProfile_request_succeeded rEmail backend_put d w data :
  valid rEmail d ->
  backend_put "/profile" (formData d) = Resolved data ->
  ∃ w',
    handleProfile rEmail backend_put d w = (inr tt, w') ∧
    calls w' = calls w ++ reset_log w ++
               [Call.api_put "/profile" (formData d);
                Call.updateUser data;
                Call.Alert_alert success_alert.1 success_alert.2;
                Call.navigation_goBack] ∧
    user w' = data.
Proof.
  intros Hv Hr. eexists. split; [by eapply handleProfile_resolved |].
  cbn. rewrite reset_calls. split; [| done].
  by rewrite <- !app_assoc.
Qed.

Lemma handleProfile_request_succeeded_witness :
  valid sample_rEmail ana ∧
  backend_ok "/profile" (formData ana) = Resolved ana_updated ∧
  ∃ w',
    handleProfile sample_rEmail backend_ok ana sample_world = (inr tt, w') ∧
    calls w' = calls sample_world ++ reset_log sample_world ++
               [Call.api_put "/profile" (formData ana);
                Call.updateUser ana_updated;
                Call.Alert_alert success_alert.1 success_alert.2;
                Call.navigation_goBack] ∧
    user w' = ana_updated.
Proof.
  split; [reflexivity |]. split; [reflexivity |].
  apply (handleProfile_request_succeeded sample_rEmail backend_ok ana
           sample_world ana_updated); reflexivity.
Defined.

(** C10. With the form mounted, the first call [handleProfile] adds to the
    log is [setErrors({})]; when it is done the form's errors are empty if
    the data was valid (whether the request resolved or was rejected) and
    are the error object of this attempt's validation otherwise: the errors
    the form showed before have no part in them. The values of the fields
    are kept. *)
Theorem handleProfile_field_errors rEmail backend_put d w form :
  formRef_current w = Some form ->
  ∃ w' rest errors,
    handleProfile rEmail backend_put d w = (inr tt, w') ∧
    calls w' = calls w ++ Call.formRef_setErrors ∅ :: rest ∧
    formRef_current w'
    = Some {| fieldValues := fieldValues form; fieldErrors := errors |} ∧
    (valid rEmail d -> errors = ∅) ∧
    (¬ valid rEmail d ->
     errors = getValidationErrors (validation_errors rEmail d)).
Proof.
  intros Hform.
  assert (Hreset : reset w
    = {| formRef_current := Some {| fieldValues := fieldValues form;
                                    fieldErrors := ∅ |};
         user := user w;
         showModalUpdateAvatar := showModalUpdateAvatar w;
         calls := calls w ++ [Call.formRef_setErrors ∅] |}).
  { unfold reset, formRef_current_setErrors. by rewrite Hform. }
  destruct (decide (valid rEmail d)) as [Hv | Hinv].
  - destruct (backend_put "/profile" (formData d)) as [data | reason] eqn:Hr.
    + eexists _, _, ∅. split; [by eapply handleProfile_resolved |].
      rewrite Hreset. cbn. split_and!; try done.
      by rewrite <- !app_assoc.
    + eexists _, _, ∅. split; [by eapply handleProfile_rejected |].
      rewrite Hreset. cbn. split_and!; try done.
      by rewrite <- !app_assoc.
  - eexists _, [Call.formRef_setErrors _], _.
    rewrite handleProfile_invalid, Hreset by done.
    unfold formRef_current_setErrors, log.
    cbn [formRef_current user showModalUpdateAvatar calls fieldValues].
    split_and!; try done. by rewrite <- !app_assoc.
Qed.

Lemma handleProfile_field_errors_witness :
  formRef_current sample_world
  = Some {| fieldValues := ana;
            fieldErrors := {[ "name" := "Nome obrigatório" ]} |} ∧
  ∃ w' rest errors,
    handleProfile sample_rEmail backend_down ana sample_world = (inr tt, w') ∧
    calls w' = calls sample_world ++ Call.formRef_setErrors ∅ :: rest ∧
    formRef_current w'
    = Some {| fieldValues := ana; fieldErrors := errors |} ∧
    (valid sample_rEmail ana -> errors = ∅) ∧
    (¬ valid sample_rEmail ana ->
     errors = getValidationErrors (validation_errors sample_rEmail ana)).
Proof.
  split; [reflexivity |].
  apply (handleProfile_field_errors sample_rEmail backend_down ana
           sample_world
           {| fieldValues := ana;
              fieldErrors := {[ "name" := "Nome obrigatório" ]} |}).
  reflexivity.
Defined.

(** * The avatar handlers *)

(** Both handlers log the launch of the picker and then run the same
    upload. *)
Section Avatar.
Variable backend_patch : string -> FormData -> Reply.

Lemma camera_callback_run w w0 response :
  camera_callback backend_patch (User.id (user w))
    (toggleModal (showModalUpdateAvatar w)) response w0
  = after_upload w w0
      (avatar_body (User.id (user w)) (ImagePicker.uri response))
      (backend_patch "users/avatar"
         (avatar_body (User.id (user w)) (ImagePicker.uri response))).
Proof.
  unfold camera_callback, api_patch, mbind, M_bind, after_upload.
  cbn. fold (avatar_body (User.id (user w)) (ImagePicker.uri response)).
  destruct (backend_patch _ _); cbn; [| done].
  unfold toggleModal, setShowModalUpdateAvatar, log. cbn.
  by rewrite <- !app_assoc.
Qed.

Lemma gallery_callback_run w w0 response :
  gallery_callback backend_patch (User.id (user w))
    (toggleModal (showModalUpdateAvatar w)) response w0
  = after_upload w w0
      (avatar_body (User.id (user w)) (ImagePicker.uri response))
      (backend_patch "users/avatar"
         (avatar_body (User.id (user w)) (ImagePicker.uri response))).
Proof.
  unfold gallery_callback, api_patch, mbind, M_bind, after_upload.
  cbn. fold (avatar_body (User.id (user w)) (ImagePicker.uri response)).
  destruct (backend_patch _ _); cbn; [| done].
  unfold toggleModal, setShowModalUpdateAvatar, log. cbn.
  by rewrite <- !app_assoc.
Qed.

Lemma updatePhotoFromCamera_run w response :
  updatePhotoFromCamera backend_patch response w
  = after_upload w (log (Call.ImagePicker_launchCamera camera_options) w)
      (avatar_body (User.id (user w)) (ImagePicker.uri response))
      (backend_patch "users/avatar"
         (avatar_body (User.id (user w)) (ImagePicker.uri response))).
Proof.
  unfold updatePhotoFromCamera. unfold mbind at 1. unfold M_bind at 1.
  unfold ImagePicker_launchCamera. by rewrite camera_callback_run.
Qed.

Lemma updatePhotoFromGallery_run w response :
  updatePhotoFromGallery backend_patch response w
  = after_upload w
      (log (Call.ImagePicker_launchImageLibrary gallery_options) w)
      (avatar_body (User.id (user w)) (ImagePicker.uri response))
      (backend_patch "users/avatar"
         (avatar_body (User.id (user w)) (ImagePicker.uri response))).
Proof.
  unfold updatePhotoFromGallery. unfold mbind at 1. unfold M_bind at 1.
  unfold ImagePicker_launchImageLibrary. by rewrite gallery_callback_run.
Qed.
End Avatar.

(** C7. When the picker hands over a file URI (whatever its extension),
    each handler sends exactly one request: a multipart body to
    [users/avatar] with the single field [avatar], file name
    [<user id>.jpg] and type [image/jpeg]. When that request resolves with
    [data] and the handler was started from the open modal, the log shows,
    after the request and in this order, [updateUser(data)] and the closing
    of the modal; the session user is then [data]. *)
Theorem avatar_upload backend_patch w response source_uri :
  ImagePicker.uri response = Some source_uri ->
  let body := [("avatar", {| File.type := "image/jpeg";
                             File.name := User.id (user w) +:+ ".jpg";
                             File.uri := Some source_uri |})] in
  (requests_of (calls (updatePhotoFromCamera backend_patch response w).2)
   = requests_of (calls w) ++ [Call.api_patch "users/avatar" body] ∧
   requests_of (calls (updatePhotoFromGallery backend_patch response w).2)
   = requests_of (calls w) ++ [Call.api_patch "users/avatar" body]) ∧
  ∀ data,
    backend_patch "users/avatar" body = Resolved data ->
    showModalUpdateAvatar w = true ->
    updatePhotoFromCamera backend_patch response w
    = (inr tt,
       {| formRef_current := formRef_current w;
          user := data;
          showModalUpdateAvatar := false;
          calls := calls w ++
                   [Call.ImagePicker_launchCamera camera_options;
                    Call.api_patch "users/avatar" body;
                    Call.updateUser data;
                    Call.setShowModalUpdateAvatar false] |}) ∧
    updatePhotoFromGallery backend_patch response w
    = (inr tt,
       {| formRef_current := formRef_current w;
          user := data;
          showModalUpdateAvatar := false;
          calls := calls w ++
                   [Call.ImagePicker_launchImageLibrary gallery_options;
                    Call.api_patch "users/avatar" body;
                    Call.updateUser data;
                    Call.setShowModalUpdateAvatar false] |}).
Proof.
  intros Huri body.
  rewrite updatePhotoFromCamera_run, updatePhotoFromGallery_run.
  rewrite Huri. unfold avatar_body. fold body.
  unfold after_upload, log. split.
  - destruct (backend_patch "users/avatar" body) as [data | reason];
      cbn [snd calls]; rewrite !requests_of_app; cbn;
      by rewrite ?app_nil_r.
  - intros data Hr Hshow. rewrite Hr, Hshow. cbn.
    by rewrite <- !app_assoc.
Qed.

Lemma avatar_upload_witness :
  ImagePicker.uri photo_taken = Some "file:///tmp/photo.png" ∧
  avatar_backend_ok "users/avatar"
    [("avatar", {| File.type := "image/jpeg"; File.name := "7.jpg";
                   File.uri := Some "file:///tmp/photo.png" |})]
  = Resolved ana_updated ∧
  showModalUpdateAvatar sample_world = true ∧
  updatePhotoFromCamera avatar_backend_ok photo_taken sample_world
  = (inr tt,
     {| formRef_current := formRef_current sample_world;
        user := ana_updated;
        showModalUpdateAvatar := false;
        calls := [Call.ImagePicker_launchCamera camera_options;
                  Call.api_patch "users/avatar"
                    [("avatar", {| File.type := "image/jpeg";
                                   File.name := "7.jpg";
                                   File.uri := Some "file:///tmp/photo.png" |})];
                  Call.updateUser ana_updated;
                  Call.setShowModalUpdateAvatar false] |}).
Proof.
  split; [reflexivity |]. split; [reflexivity |]. split; [reflexivity |].
  apply (proj2 (avatar_upload avatar_backend_ok sample_world photo_taken
                  "file:///tmp/photo.png" eq_refl)
               ana_updated eq_refl eq_refl).
Defined.

(** C8. For the same response of the picker, the two callbacks are the same
    function, and the two handlers run the same sequence after launching
    the picker: they send the same multipart body to [users/avatar] and,
    when the request resolves, call [updateUser] with the response body and
    then set the modal flag to the negation of the flag at the press
    (closing the modal when it was open); when the request is rejected both
    stop there with the same rejection. They end in the same form, session
    user and modal flag, and their logs differ only in the first new entry:
    [launchCamera] with [{mediaType: 'photo', saveToPhotos: true,
    quality: 0.5}] against [launchImageLibrary] with [{mediaType: 'photo',
    quality: 0.5}]. *)
Theorem camera_gallery_equivalent backend_patch response w :
  (∀ user_id toggle,
     camera_callback backend_patch user_id toggle response
     = gallery_callback backend_patch user_id toggle response) ∧
  let body := [("avatar", {| File.type := "image/jpeg";
                             File.name := User.id (user w) +:+ ".jpg";
                             File.uri := ImagePicker.uri response |})] in
  let outcome (launch : Call.t) : (exn + unit) * World :=
    match backend_patch "users/avatar" body with
    | Resolved data =>
        (inr tt,
         {| formRef_current := formRef_current w;
            user := data;
            showModalUpdateAvatar := negb (showModalUpdateAvatar w);
            calls := calls w ++
                     [launch;
                      Call.api_patch "users/avatar" body;
                      Call.updateUser data;
                      Call.setShowModalUpdateAvatar
                        (negb (showModalUpdateAvatar w))] |})
    | Rejected reason =>
        (inl (RequestError reason),
         {| formRef_current := formRef_current w;
            user := user w;
            showModalUpdateAvatar := showModalUpdateAvatar w;
            calls := calls w ++
                     [launch; Call.api_patch "users/avatar" body] |})
    end in
  updatePhotoFromCamera backend_patch response w
  = outcome (Call.ImagePicker_launchCamera
               {| ImagePicker.mediaType := "photo";
                  ImagePicker.saveToPhotos := Some true;
                  ImagePicker.quality := 0.5 |}) ∧
  updatePhotoFromGallery backend_patch response w
  = outcome (Call.ImagePicker_launchImageLibrary
               {| ImagePicker.mediaType := "photo";
                  ImagePicker.saveToPhotos := None;
                  ImagePicker.quality := 0.5 |}).
Proof.
  split; [reflexivity |]. cbv zeta.
  rewrite updatePhotoFromCamera_run, updatePhotoFromGallery_run.
  unfold after_upload, avatar_body, log.
  destruct (backend_patch _ _) as [data | reason];
    cbn [formRef_current user showModalUpdateAvatar calls];
    by rewrite <- !app_assoc.
Qed.

(** C9, as the code has it. A response with [didCancel] set and no [uri] is
    handled like any other: each handler sends one request to
    [users/avatar] whose [avatar] part has no [uri], and shows no alert; if
    the request resolves the session user is replaced and the modal
    toggled, if it is rejected the rejection leaves the handler and the
    session user and the modal are as before. [didCancel] is never read. *)
Theorem cancelled_capture_uploads backend_patch w response :
  ImagePicker.didCancel response = true ->
  ImagePicker.uri response = None ->
  let body := [("avatar", {| File.type := "image/jpeg";
                             File.name := User.id (user w) +:+ ".jpg";
                             File.uri := None |})] in
  ∀ handler,
    handler ∈ [updatePhotoFromCamera backend_patch;
               updatePhotoFromGallery backend_patch] ->
    handler response w
    = handler {| ImagePicker.didCancel := false;
                 ImagePicker.uri := ImagePicker.uri response |} w ∧
    ∃ r w',
      handler response w = (r, w') ∧
      requests_of (calls w')
      = requests_of (calls w) ++ [Call.api_patch "users/avatar" body] ∧
      alerts_of (calls w') = alerts_of (calls w) ∧
      match backend_patch "users/avatar" body with
      | Resolved data =>
          r = inr tt ∧ user w' = data ∧
          showModalUpdateAvatar w' = negb (showModalUpdateAvatar w)
      | Rejected reason =>
          r = inl (RequestError reason) ∧ user w' = user w ∧
          showModalUpdateAvatar w' = showModalUpdateAvatar w
      end.
Proof.
  intros _ Huri body handler Hin.
  apply elem_of_cons in Hin as [-> | Hin];
    [| apply elem_of_cons in Hin as [-> | Hin];
       [| by apply elem_of_nil in Hin]].
  - rewrite !updatePhotoFromCamera_run.
    cbn [ImagePicker.uri]. split; [done |].
    rewrite Huri. unfold avatar_body. fold body.
    unfold after_upload, log.
    destruct (backend_patch "users/avatar" body) as [data | reason];
      eexists _, _; (split; [reflexivity |]);
      cbn [calls user showModalUpdateAvatar];
      rewrite !requests_of_app, !alerts_of_app; cbn;
      by rewrite ?app_nil_r.
  - rewrite !updatePhotoFromGallery_run.
    cbn [ImagePicker.uri]. split; [done |].
    rewrite Huri. unfold avatar_body. fold body.
    unfold after_upload, log.
    destruct (backend_patch "users/avatar" body) as [data | reason];
      eexists _, _; (split; [reflexivity |]);
      cbn [calls user showModalUpdateAvatar];
      rewrite !requests_of_app, !alerts_of_app; cbn;
      by rewrite ?app_nil_r.
Qed.

Lemma cancelled_capture_uploads_witness :
  ImagePicker.didCancel picker_cancelled = true ∧
  ImagePicker.uri picker_cancelled = None ∧
  ∃ r w',
    updatePhotoFromCamera avatar_backend_ok picker_cancelled sample_world
    = (r, w') ∧
    requests_of (calls w')
    = requests_of (calls sample_world) ++
      [Call.api_patch "users/avatar"
         [("avatar", {| File.type := "image/jpeg";
                        File.name := User.id (user sample_world) +:+ ".jpg";
                        File.uri := None |})]] ∧
    alerts_of (calls w') = alerts_of (calls sample_world) ∧
    match avatar_backend_ok "users/avatar"
            [("avatar", {| File.type := "image/jpeg";
                           File.name := User.id (user sample_world) +:+ ".jpg";
                           File.uri := None |})] with
    | Resolved data =>
        r = inr tt ∧ user w' = data ∧
        showModalUpdateAvatar w' = negb (showModalUpdateAvatar sample_world)
    | Rejected reason =>
        r = inl (RequestError reason) ∧ user w' = user sample_world ∧
        showModalUpdateAvatar w' = showModalUpdateAvatar sample_world
    end.
Proof.
  split; [reflexivity |]. split; [reflexivity |].
  apply (cancelled_capture_uploads avatar_backend_ok sample_world
           picker_cancelled eq_refl eq_refl
           (updatePhotoFromCamera avatar_backend_ok)).
  constructor.
Defined.

(** C9, as the spec has it, fails. After a cancelled capture the camera
    handler has sent a request; when the backend rejects it the rejection
    leaves the handler, and when the backend accepts it the session user is
    replaced and the modal closed. *)
Lemma cancelled_capture_not_silent :
  updatePhotoFromCamera avatar_backend_down picker_cancelled sample_world
  = (inl (RequestError "Request failed with status code 500"),
     {| formRef_current := formRef_current sample_world;
        user := ana_user;
        showModalUpdateAvatar := true;
        calls := [Call.ImagePicker_launchCamera camera_options;
                  Call.api_patch "users/avatar"
                    [("avatar", {| File.type := "image/jpeg";
                                   File.name := "7.jpg";
                                   File.uri := None |})]] |}) ∧
  updatePhotoFromCamera avatar_backend_ok picker_cancelled sample_world
  = (inr tt,
     {| formRef_current := formRef_current sample_world;
        user := ana_updated;
        showModalUpdateAvatar := false;
        calls := [Call.ImagePicker_launchCamera camera_options;
                  Call.api_patch "users/avatar"
                    [("avatar", {| File.type := "image/jpeg";
                                   File.name := "7.jpg";
                                   File.uri := None |})];
                  Call.updateUser ana_updated;
                  Call.setShowModalUpdateAvatar false] |}) ∧
  requests_of (calls sample_world) = [] ∧
  user sample_world = ana_user ∧
  ana_user ≠ ana_updated ∧
  showModalUpdateAvatar sample_world = true.
Proof. split_and!; try reflexivity. discriminate. Qed.

(** * Further properties of the submission handler *)

Lemma navigations_of_app cs1 cs2 :
  navigations_of (cs1 ++ cs2) = navigations_of cs1 ++ navigations_of cs2.
Proof. apply flat_map_app. Qed.

Lemma setErrors_result errors w :
  (formRef_current_setErrors errors w).1 = inr tt.
Proof. unfold formRef_current_setErrors. by destruct (formRef_current w). Qed.

Lemma setErrors_calls errors w :
  calls (formRef_current_setErrors errors w).2
  = calls w ++ match formRef_current w with
               | Some _ => [Call.formRef_setErrors errors]
               | None => []
               end.
Proof.
  unfold formRef_current_setErrors.
  destruct (formRef_current w); cbn; [done | by rewrite app_nil_r].
Qed.

Lemma setErrors_user errors w :
  user (formRef_current_setErrors errors w).2 = user w.
Proof. unfold formRef_current_setErrors. by destruct (formRef_current w). Qed.

Lemma setErrors_showModalUpdateAvatar errors w :
  showModalUpdateAvatar (formRef_current_setErrors errors w).2
  = showModalUpdateAvatar w.
Proof. unfold formRef_current_setErrors. by destruct (formRef_current w). Qed.

Lemma setErrors_fieldValues errors w :
  fieldValues <$> formRef_current (formRef_current_setErrors errors w).2
  = fieldValues <$> formRef_current w.
Proof.
  unfold formRef_current_setErrors.
  destruct (formRef_current w) eqn:E; cbn; [done | by rewrite E].
Qed.

(** The three ways through [handleProfile], as one case analysis. *)
Lemma handleProfile_cases rEmail backend_put d w :
  (valid rEmail d ∧
   ∃ data,
     backend_put "/profile" (formData d) = Resolved data ∧
     handleProfile rEmail backend_put d w
     = (inr tt,
        log Call.navigation_goBack
          (log (Call.Alert_alert "Perfil atualizado com sucesso!" None)
             (updateUser data
                (log (Call.api_put "/profile" (formData d)) (reset w))).2)))
  ∨ (valid rEmail d ∧
     ∃ reason,
       backend_put "/profile" (formData d) = Rejected reason ∧
       handleProfile rEmail backend_put d w
       = (inr tt,
          log (Call.Alert_alert
                 "Erro na atualização do perfil"
                 (Some "Ocorreu um erro ao atualizar seu perfil, tente novamente."))
              (log (Call.api_put "/profile" (formData d)) (reset w))))
  ∨ (¬ valid rEmail d ∧
     handleProfile rEmail backend_put d w
     = (inr tt,
        (formRef_current_setErrors
           (getValidationErrors (validation_errors rEmail d)) (reset w)).2)).
Proof.
  destruct (decide (valid rEmail d)) as [Hv | Hinv].
  - destruct (backend_put "/profile" (formData d)) as [data | reason] eqn:Hr.
    + left. split; [done |]. exists data. split; [done |].
      by apply handleProfile_resolved.
    + right. left. split; [done |]. exists reason. split; [done |].
      by eapply handleProfile_rejected.
  - right. right. split; [done |].
    rewrite handleProfile_invalid by done.
    rewrite (surjective_pairing (formRef_current_setErrors _ _)).
    by rewrite setErrors_result.
Qed.

(** X1. The promise of [handleProfile] never rejects: whatever the data,
    the state and the backend's answer, the [catch] block absorbs the
    exception and the handler returns normally. *)
Theorem handleProfile_never_rejects rEmail backend_put d w :
  (handleProfile rEmail backend_put d w).1 = inr tt.
Proof.
  destruct (handleProfile_cases rEmail backend_put d w)
    as [(_ & ? & _ & ->) | [(_ & ? & _ & ->) | (_ & ->)]]; reflexivity.
Qed.

(** X2. [handleProfile] sends a request exactly when the data is valid, and
    then exactly one: [PUT /profile] with the body built from the data.
    Invalid data never reaches the network. *)
Theorem handleProfile_requests rEmail backend_put d w :
  requests_of (calls (handleProfile rEmail backend_put d w).2)
  = requests_of (calls w) ++
    (if decide (valid rEmail d)
     then [Call.api_put "/profile" (formData d)]
     else []).
Proof.
  assert (Hreset : requests_of (calls (reset w)) = requests_of (calls w)).
  { rewrite reset_calls, requests_of_app. unfold reset_log.
    destruct (formRef_current w); cbn; by rewrite app_nil_r. }
  destruct (handleProfile_cases rEmail backend_put d w)
    as [(Hv & ? & _ & ->) | [(Hv & ? & _ & ->) | (Hinv & ->)]].
  - rewrite decide_True by done. cbn.
    rewrite !requests_of_app, Hreset. cbn. by rewrite !app_nil_r.
  - rewrite decide_True by done. cbn.
    rewrite !requests_of_app, Hreset. cbn. by rewrite !app_nil_r.
  - rewrite decide_False by done. cbn [snd].
    rewrite setErrors_calls, requests_of_app, Hreset.
    by destruct (formRef_current (reset w)).
Qed.

(** X3. [handleProfile] replaces the session user exactly when the data is
    valid and the request resolves, and then with the response body; it
    never changes the modal flag, the values of the form's fields or
    whether the form is mounted. *)
Theorem handleProfile_state rEmail backend_put d w :
  let w' := (handleProfile rEmail backend_put d w).2 in
  user w'
  = (if decide (valid rEmail d)
     then match backend_put "/profile" (formData d) with
          | Resolved data => data
          | Rejected _ => user w
          end
     else user w) ∧
  showModalUpdateAvatar w' = showModalUpdateAvatar w ∧
  fieldValues <$> formRef_current w' = fieldValues <$> formRef_current w.
Proof.
  assert (Hvalues : fieldValues <$> formRef_current (reset w)
                    = fieldValues <$> formRef_current w)
    by apply setErrors_fieldValues.
  destruct (handleProfile_cases rEmail backend_put d w)
    as [(Hv & ? & Hr & ->) | [(Hv & ? & Hr & ->) | (Hinv & ->)]]; cbn zeta.
  - rewrite decide_True, Hr by done. cbn.
    by rewrite reset_showModalUpdateAvatar.
  - rewrite decide_True, Hr by done. cbn.
    by rewrite reset_showModalUpdateAvatar, reset_user.
  - rewrite decide_False by done. cbn [snd].
    by rewrite setErrors_user, setErrors_showModalUpdateAvatar,
      setErrors_fieldValues, reset_user, reset_showModalUpdateAvatar.
Qed.

(** X4. A submission of valid data shows exactly one alert, the success one
    if the request resolved and the failure one if it was rejected, and
    navigates back (once) only in the first case; a submission of invalid
    data shows no alert and does not navigate. *)
Theorem handleProfile_feedback rEmail backend_put d w :
  let w' := (handleProfile rEmail backend_put d w).2 in
  alerts_of (calls w')
  = alerts_of (calls w) ++
    (if decide (valid rEmail d)
     then [alert_for (backend_put "/profile" (formData d))]
     else []) ∧
  navigations_of (calls w')
  = navigations_of (calls w) ++
    (if decide (valid rEmail d)
     then navigation_for (backend_put "/profile" (formData d))
     else []).
Proof.
  assert (Ha : alerts_of (calls (reset w)) = alerts_of (calls w)).
  { rewrite reset_calls, alerts_of_app, alerts_of_reset_log.
    by rewrite app_nil_r. }
  assert (Hn : navigations_of (calls (reset w)) = navigations_of (calls w)).
  { rewrite reset_calls, navigations_of_app. unfold reset_log.
    destruct (formRef_current w); cbn; by rewrite app_nil_r. }
  destruct (handleProfile_cases rEmail backend_put d w)
    as [(Hv & ? & Hr & ->) | [(Hv & ? & Hr & ->) | (Hinv & ->)]]; cbn zeta.
  - rewrite !decide_True, Hr by done. cbn.
    rewrite !alerts_of_app, !navigations_of_app, Ha, Hn. cbn.
    by rewrite !app_nil_r.
  - rewrite !decide_True, Hr by done. cbn.
    rewrite !alerts_of_app, !navigations_of_app, Ha, Hn. cbn.
    by rewrite !app_nil_r.
  - rewrite !decide_False by done. cbn [snd].
    rewrite setErrors_calls, alerts_of_app, navigations_of_app, Ha, Hn.
    by destruct (formRef_current (reset w)).
Qed.

(** X5. While the form ref is not attached, a submission of invalid data
    does nothing at all: no error is displayed, no alert is shown, no
    request is sent and the state is the one before. *)
Theorem handleProfile_unmounted_invalid rEmail backend_put d w :
  formRef_current w = None ->
  ¬ valid rEmail d ->
  handleProfile rEmail backend_put d w = (inr tt, w).
Proof.
  intros Hform Hinv. rewrite handleProfile_invalid by done.
  unfold reset, formRef_current_setErrors. rewrite Hform. cbn.
  by rewrite Hform.
Qed.

Lemma handleProfile_unmounted_invalid_witness :
  formRef_current sample_world_unmounted = None ∧
  validation_errors sample_rEmail nameless = [("name", "Nome obrigatório")] ∧
  handleProfile sample_rEmail backend_ok nameless sample_world_unmounted
  = (inr tt, sample_world_unmounted).
Proof.
  split; [reflexivity |]. split; [reflexivity |].
  apply (handleProfile_unmounted_invalid sample_rEmail backend_ok nameless
           sample_world_unmounted eq_refl).
  discriminate.
Defined.

(** * Further properties of the payload and of the schema *)

(** The lookups of the three optional keys, in both cases. *)
Lemma formData_lookups (d : ProfileFormData) :
  (old_password d ≠ "" ->
   formData d !! "old_password" = Some (old_password d) ∧
   formData d !! "password" = Some (password d) ∧
   formData d !! "password_confirmation" = Some (password_confirmation d)) ∧
  (old_password d = "" -> formData d !! "password" = None).
Proof.
  unfold formData, spread. cbv zeta. split.
  - intros H. apply truthy_string_true in H. rewrite H. by split_and!.
  - intros H. rewrite H. reflexivity.
Qed.

(** X6. A body built from valid data never carries a half-filled password
    change: if it has the key [password], the new password is not empty,
    [password_confirmation] holds the same value and [old_password] is
    there and not empty. *)
Theorem formData_password_change rEmail (d : ProfileFormData) :
  valid rEmail d ->
  ∀ p, formData d !! "password" = Some p ->
       p = password d ∧ p ≠ "" ∧
       formData d !! "password_confirmation" = Some p ∧
       formData d !! "old_password" = Some (old_password d) ∧
       old_password d ≠ "".
Proof.
  intros Hv p Hp. apply valid_iff in Hv as (_ & _ & _ & Hreq & Heq).
  destruct (formData_lookups d) as [Hwith Hwithout].
  destruct (truthy_string (old_password d)) eqn:E.
  - apply truthy_string_true in E. destruct (Hreq E) as [Hpw Hpc].
    destruct (Hwith E) as (Ho & Hp' & Hc').
    rewrite Hp' in Hp. injection Hp as <-.
    split_and!; try done. by rewrite Hc', Heq.
  - apply truthy_string_false in E.
    rewrite (Hwithout E) in Hp. discriminate.
Qed.

Lemma formData_password_change_witness :
  valid sample_rEmail ana_new_password ∧
  formData ana_new_password !! "password" = Some "new1" ∧
  "new1" = password ana_new_password ∧ "new1" ≠ "" ∧
  formData ana_new_password !! "password_confirmation" = Some "new1" ∧
  formData ana_new_password !! "old_password"
  = Some (old_password ana_new_password) ∧
  old_password ana_new_password ≠ "".
Proof.
  split; [reflexivity |]. split; [reflexivity |].
  apply (formData_password_change sample_rEmail ana_new_password eq_refl
           "new1" eq_refl).
Defined.

(** X7. A new password typed without the current one is dropped without
    notice: such data is valid as soon as the confirmation matches, and
    the one request [handleProfile] sends carries [name] and [email]
    only. *)
Theorem handleProfile_drops_new_password rEmail backend_put d w :
  old_password d = "" ->
  name d ≠ "" -> email d ≠ "" -> rEmail (email d) = true ->
  password_confirmation d = password d ->
  valid rEmail d ∧
  requests_of (calls (handleProfile rEmail backend_put d w).2)
  = requests_of (calls w) ++
    [Call.api_put "/profile" {[ "name" := name d; "email" := email d ]}].
Proof.
  intros Ho Hn He Hr Heq.
  assert (Hv : valid rEmail d).
  { apply valid_iff. by split_and!. }
  split; [done |].
  assert (Hbody : formData d = {[ "name" := name d; "email" := email d ]}).
  { unfold formData, spread. cbv zeta. rewrite Ho. cbn [truthy_string].
    apply (left_id_L ∅ (∪)). }
  rewrite <- Hbody. clear Hbody.
  assert (Hreset : requests_of (calls (reset w)) = requests_of (calls w)).
  { rewrite reset_calls, requests_of_app. unfold reset_log.
    destruct (formRef_current w); cbn; by rewrite app_nil_r. }
  destruct (handleProfile_cases rEmail backend_put d w)
    as [(_ & ? & _ & ->) | [(_ & ? & _ & ->) | (Hinv & _)]]; [| | done].
  - cbn. rewrite !requests_of_app, Hreset. cbn. by rewrite !app_nil_r.
  - cbn. rewrite !requests_of_app, Hreset. cbn. by rewrite !app_nil_r.
Qed.

Lemma handleProfile_drops_new_password_witness :
  password ana_without_old_password = "new1" ∧
  old_password ana_without_old_password = "" ∧
  valid sample_rEmail ana_without_old_password ∧
  requests_of
    (calls (handleProfile sample_rEmail backend_ok ana_without_old_password
              sample_world).2)
  = requests_of (calls sample_world) ++
    [Call.api_put "/profile"
       {[ "name" := name ana_without_old_password;
          "email" := email ana_without_old_password ]}].
Proof.
  split; [reflexivity |]. split; [reflexivity |].
  apply (handleProfile_drops_new_password sample_rEmail backend_ok
           ana_without_old_password sample_world);
    solve [reflexivity | discriminate].
Defined.

(** X8. The inner errors of a validation are only for [name], [email],
    [password] and [password_confirmation]: [old_password] never gets one,
    whatever it holds. Each of [name], [email] and [password] gets at most
    one message. *)
Theorem validation_errors_paths rEmail (d : ProfileFormData) :
  (validation_errors rEmail d).*1
  ⊆ ["name"; "email"; "password"; "password_confirmation"] ∧
  messages_of "old_password" (validation_errors rEmail d) = [] ∧
  ∀ k, k ∈ [k_name; k_email; k_password] ->
       (List.length (messages_of (key_path k) (validation_errors rEmail d))
        ≤ 1)%nat.
Proof.
  split_and!.
  - rewrite validation_errors_fields.
    unfold all_keys, field_messages, name_messages, email_messages,
      password_messages, password_confirmation_messages.
    destruct (truthy_string (name d)), (truthy_string (email d)),
      (rEmail (email d)), (truthy_string (old_password d)),
      (truthy_string (password d)),
      (truthy_string (password_confirmation d)),
      (String.eqb (password d) (password_confirmation d));
      cbn; by compute_done.
  - apply (messages_of_validation rEmail d k_old_password).
  - intros k _. rewrite messages_of_validation.
    apply field_messages_at_most_one.
Qed.

(** X9. [name] gets the required message exactly when it is empty. An empty
    [email] gets the required message only (not also the invalid-address
    one); an [email] that is not empty gets the invalid-address message
    exactly when Yup's expression rejects it. None of this depends on the
    password fields. *)
Theorem validation_name_email rEmail (d : ProfileFormData) :
  (name d = "" ->
   messages_of "name" (validation_errors rEmail d) = ["Nome obrigatório"]) ∧
  (name d ≠ "" -> messages_of "name" (validation_errors rEmail d) = []) ∧
  (email d = "" ->
   messages_of "email" (validation_errors rEmail d)
   = ["E-mail obrigatório"]) ∧
  (email d ≠ "" -> rEmail (email d) = false ->
   messages_of "email" (validation_errors rEmail d)
   = ["Digite um e-mail válido"]) ∧
  (email d ≠ "" -> rEmail (email d) = true ->
   messages_of "email" (validation_errors rEmail d) = []).
Proof.
  pose proof (messages_of_validation rEmail d k_name) as Hn.
  pose proof (messages_of_validation rEmail d k_email) as He.
  cbn [key_path field_messages] in Hn, He. rewrite Hn, He.
  unfold name_messages, email_messages.
  split_and!.
  - by intros ->.
  - intros H. apply truthy_string_true in H. by rewrite H.
  - by intros ->.
  - intros H Hr. apply truthy_string_true in H. by rewrite H, Hr.
  - intros H Hr. apply truthy_string_true in H. by rewrite H, Hr.
Qed.

(** * Further properties of the avatar handlers and of the modal *)

(** X10. When the upload is rejected, each avatar handler lets the
    rejection out (nothing catches it): the log has gained the launch of
    the picker and the request only, so no alert is shown, and the form,
    the session user and the modal flag are as before. *)
Theorem avatar_upload_rejected backend_patch w response reason :
  backend_patch "users/avatar"
    (avatar_body (User.id (user w)) (ImagePicker.uri response))
  = Rejected reason ->
  updatePhotoFromCamera backend_patch response w
  = (inl (RequestError reason),
     {| formRef_current := formRef_current w;
        user := user w;
        showModalUpdateAvatar := showModalUpdateAvatar w;
        calls := calls w ++
                 [Call.ImagePicker_launchCamera camera_options;
                  Call.api_patch "users/avatar"
                    (avatar_body (User.id (user w))
                                 (ImagePicker.uri response))] |}) ∧
  updatePhotoFromGallery backend_patch response w
  = (inl (RequestError reason),
     {| formRef_current := formRef_current w;
        user := user w;
        showModalUpdateAvatar := showModalUpdateAvatar w;
        calls := calls w ++
                 [Call.ImagePicker_launchImageLibrary gallery_options;
                  Call.api_patch "users/avatar"
                    (avatar_body (User.id (user w))
                                 (ImagePicker.uri response))] |}).
Proof.
  intros Hr.
  rewrite updatePhotoFromCamera_run, updatePhotoFromGallery_run, Hr.
  unfold after_upload, log. cbn. by rewrite <- !app_assoc.
Qed.

Lemma avatar_upload_rejected_witness :
  avatar_backend_down "users/avatar"
    (avatar_body (User.id (user sample_world)) (ImagePicker.uri photo_taken))
  = Rejected "Request failed with status code 500" ∧
  updatePhotoFromCamera avatar_backend_down photo_taken sample_world
  = (inl (RequestError "Request failed with status code 500"),
     {| formRef_current := formRef_current sample_world;
        user := user sample_world;
        showModalUpdateAvatar := showModalUpdateAvatar sample_world;
        calls := calls sample_world ++
                 [Call.ImagePicker_launchCamera camera_options;
                  Call.api_patch "users/avatar"
                    (avatar_body (User.id (user sample_world))
                                 (ImagePicker.uri photo_taken))] |}).
Proof.
  split; [reflexivity |].
  apply (avatar_upload_rejected avatar_backend_down sample_world photo_taken
           "Request failed with status code 500" eq_refl).
Defined.

(** X11. The avatar handlers toggle, they do not close: after a handler
    whose upload resolved, the modal flag is the negation of the flag at
    the time of the press (so a handler started with the modal closed
    leaves it open), and after one whose upload was rejected the flag is
    the one at the time of the press. *)
Theorem avatar_upload_modal backend_patch w response :
  let flag_after :=
    match backend_patch "users/avatar"
            (avatar_body (User.id (user w)) (ImagePicker.uri response)) with
    | Resolved _ => negb (showModalUpdateAvatar w)
    | Rejected _ => showModalUpdateAvatar w
    end in
  showModalUpdateAvatar (updatePhotoFromCamera backend_patch response w).2
  = flag_after ∧
  showModalUpdateAvatar (updatePhotoFromGallery backend_patch response w).2
  = flag_after.
Proof.
  cbv zeta.
  rewrite updatePhotoFromCamera_run, updatePhotoFromGallery_run.
  unfold after_upload. by destruct (backend_patch _ _).
Qed.

(** X12. Two presses on the modal's toggle, each bound by its own render,
    restore the modal flag: the first sets it to its negation, the second
    sets it back, and nothing else changes. *)
Theorem toggleModal_twice w :
  (onPress_toggleModal;; onPress_toggleModal) w
  = (inr tt,
     {| formRef_current := formRef_current w;
        user := user w;
        showModalUpdateAvatar := showModalUpdateAvatar w;
        calls := calls w ++
                 [Call.setShowModalUpdateAvatar
                    (negb (showModalUpdateAvatar w));
                  Call.setShowModalUpdateAvatar
                    (showModalUpdateAvatar w)] |}).
Proof.
  unfold mbind, M_bind, onPress_toggleModal, toggleModal,
    setShowModalUpdateAvatar, log. cbn.
  by rewrite negb_involutive, <- app_assoc.
Qed.

(** X13. A "Cancelar" pressed while the upload is pending is not undone
    when the upload completes: the callback sets the flag to the negation
    of the value its own render captured, so the modal, closed by the
    press, stays closed. Without an event in between, the handler with its
    suspension point is [updatePhotoFromCamera]. *)
Theorem cancel_during_upload backend_patch w response data :
  showModalUpdateAvatar w = true ->
  backend_patch "users/avatar"
    (avatar_body (User.id (user w)) (ImagePicker.uri response))
  = Resolved data ->
  updatePhotoFromCamera_during backend_patch onPress_toggleModal response w
  = (inr tt,
     {| formRef_current := formRef_current w;
        user := data;
        showModalUpdateAvatar := false;
        calls := calls w ++
                 [Call.ImagePicker_launchCamera camera_options;
                  Call.api_patch "users/avatar"
                    (avatar_body (User.id (user w))
                                 (ImagePicker.uri response));
                  Call.setShowModalUpdateAvatar false;
                  Call.updateUser data;
                  Call.setShowModalUpdateAvatar false] |}) ∧
  ∀ w0, updatePhotoFromCamera_during backend_patch (mret tt) response w0
        = updatePhotoFromCamera backend_patch response w0.
Proof.
  intros Hshow Hr. split; [| reflexivity].
  unfold updatePhotoFromCamera_during, camera_callback_during,
    api_patch_during, ImagePicker_launchCamera.
  unfold mbind, M_bind. cbn.
  fold (avatar_body (User.id (user w)) (ImagePicker.uri response)).
  rewrite Hr. unfold onPress_toggleModal, toggleModal,
    setShowModalUpdateAvatar, updateUser, settle, log. cbn.
  rewrite Hshow. cbn. by rewrite <- !app_assoc.
Qed.

Lemma cancel_during_upload_witness :
  showModalUpdateAvatar sample_world = true ∧
  updatePhotoFromCamera_during avatar_backend_ok onPress_toggleModal
    photo_taken sample_world
  = (inr tt,
     {| formRef_current := formRef_current sample_world;
        user := ana_updated;
        showModalUpdateAvatar := false;
        calls := calls sample_world ++
                 [Call.ImagePicker_launchCamera camera_options;
                  Call.api_patch "users/avatar"
                    (avatar_body (User.id (user sample_world))
                                 (ImagePicker.uri photo_taken));
                  Call.setShowModalUpdateAvatar false;
                  Call.updateUser ana_updated;
                  Call.setShowModalUpdateAvatar false] |}).
Proof.
  split; [reflexivity |].
  apply (cancel_during_upload avatar_backend_ok sample_world photo_taken
           ana_updated eq_refl eq_refl).
Defined.

(** X14. From the closed modal, a press on the avatar followed by a capture
    whose upload resolves ends with the modal closed again and the session
    user replaced: the handler's render saw the modal open. *)
Theorem open_modal_then_upload backend_patch w response data :
  showModalUpdateAvatar w = false ->
  backend_patch "users/avatar"
    (avatar_body (User.id (user w)) (ImagePicker.uri response))
  = Resolved data ->
  (onPress_toggleModal;; updatePhotoFromCamera backend_patch response) w
  = (inr tt,
     {| formRef_current := formRef_current w;
        user := data;
        showModalUpdateAvatar := false;
        calls := calls w ++
                 [Call.setShowModalUpdateAvatar true;
                  Call.ImagePicker_launchCamera camera_options;
                  Call.api_patch "users/avatar"
                    (avatar_body (User.id (user w))
                                 (ImagePicker.uri response));
                  Call.updateUser data;
                  Call.setShowModalUpdateAvatar false] |}).
Proof.
  intros Hshow Hr.
  unfold mbind at 1. unfold M_bind at 1.
  unfold onPress_toggleModal, toggleModal, setShowModalUpdateAvatar.
  rewrite updatePhotoFromCamera_run. unfold log. cbn. rewrite Hr, Hshow.
  unfold after_upload. cbn. by rewrite <- !app_assoc.
Qed.

Lemma open_modal_then_upload_witness :
  showModalUpdateAvatar sample_world_closed = false ∧
  (onPress_toggleModal;;
   updatePhotoFromCamera avatar_backend_ok photo_taken) sample_world_closed
  = (inr tt,
     {| formRef_current := formRef_current sample_world_closed;
        user := ana_updated;
        showModalUpdateAvatar := false;
        calls := calls sample_world_closed ++
                 [Call.setShowModalUpdateAvatar true;
                  Call.ImagePicker_launchCamera camera_options;
                  Call.api_patch "users/avatar"
                    (avatar_body (User.id (user sample_world_closed))
                                 (ImagePicker.uri photo_taken));
                  Call.updateUser ana_updated;
                  Call.setShowModalUpdateAvatar false] |}).
Proof.
  split; [reflexivity |].
  apply (open_modal_then_upload avatar_backend_ok sample_world_closed
           photo_taken ana_updated eq_refl eq_refl).
Defined.

Lemma append_cons (c : Ascii.ascii) (s1 s2 : string) :
  String c s1 +:+ s2 = String c (s1 +:+ s2).
Proof. reflexivity. Qed.

Lemma length_append (s1 s2 : string) :
  String.length (s1 +:+ s2) = (String.length s1 + String.length s2)%nat.
Proof.
  induction s1 as [| c s1 IH]; [reflexivity |].
  rewrite append_cons. cbn [String.length]. by rewrite IH.
Qed.

Lemma append_suffix_inj (s1 s2 suffix : string) :
  s1 +:+ suffix = s2 +:+ suffix -> s1 = s2.
Proof.
  revert s2. induction s1 as [| c s1 IH]; intros [| c2 s2] H.
  - done.
  - apply (f_equal String.length) in H.
    rewrite !length_append in H. cbn [String.length] in H. lia.
  - apply (f_equal String.length) in H.
    rewrite !length_append in H. cbn [String.length] in H. lia.
  - rewrite !append_cons in H. injection H as -> H. by rewrite (IH s2 H).
Qed.

(** X15. The multipart body determines the user id and the URI it was built
    from: two users never upload under the same file name, although the
    extension is always [.jpg]. *)
Theorem avatar_body_inj (id1 id2 : string) (uri1 uri2 : option string) :
  avatar_body id1 uri1 = avatar_body id2 uri2 <-> id1 = id2 ∧ uri1 = uri2.
Proof.
  split.
  - unfold avatar_body. intros H. injection H as Hname Huri.
    split; [by apply (append_suffix_inj _ _ ".jpg") | done].
  - by intros [-> ->].
Qed.

(** * Further properties: submissions in sequence *)

(** X16. A submission that failed validation does not stand in the way of
    the next one: submitting valid data afterwards clears the errors shown,
    sends the one request and, when it resolves, replaces the session user,
    shows the success alert and navigates back. *)
Theorem handleProfile_after_invalid rEmail backend_put d1 d2 w form data :
  formRef_current w = Some form ->
  ¬ valid rEmail d1 ->
  valid rEmail d2 ->
  backend_put "/profile" (formData d2) = Resolved data ->
  (handleProfile rEmail backend_put d1;;
   handleProfile rEmail backend_put d2) w
  = (inr tt,
     {| formRef_current :=
          Some {| fieldValues := fieldValues form; fieldErrors := ∅ |};
        user := data;
        showModalUpdateAvatar := showModalUpdateAvatar w;
        calls := calls w ++
                 [Call.formRef_setErrors ∅;
                  Call.formRef_setErrors
                    (getValidationErrors (validation_errors rEmail d1));
                  Call.formRef_setErrors ∅;
                  Call.api_put "/profile" (formData d2);
                  Call.updateUser data;
                  Call.Alert_alert success_alert.1 success_alert.2;
                  Call.navigation_goBack] |}).
Proof.
  intros Hform Hinv Hv Hr.
  unfold mbind at 1. unfold M_bind at 1.
  rewrite (handleProfile_invalid rEmail backend_put d1 w Hinv).
  unfold reset at 1. unfold formRef_current_setErrors at 1 2.
  rewrite Hform.
  cbn [formRef_current user showModalUpdateAvatar calls fieldValues snd log].
  rewrite (handleProfile_resolved rEmail backend_put d2 _ data Hv Hr).
  unfold reset, formRef_current_setErrors, updateUser, log.
  cbn [formRef_current user showModalUpdateAvatar calls fieldValues
       fst snd success_alert].
  by rewrite <- !app_assoc.
Qed.

Lemma handleProfile_after_invalid_witness :
  formRef_current sample_world
  = Some {| fieldValues := ana;
            fieldErrors := {[ "name" := "Nome obrigatório" ]} |} ∧
  validation_errors sample_rEmail nameless = [("name", "Nome obrigatório")] ∧
  valid sample_rEmail ana ∧
  (handleProfile sample_rEmail backend_ok nameless;;
   handleProfile sample_rEmail backend_ok ana) sample_world
  = (inr tt,
     {| formRef_current := Some {| fieldValues := ana; fieldErrors := ∅ |};
        user := ana_updated;
        showModalUpdateAvatar := showModalUpdateAvatar sample_world;
        calls := calls sample_world ++
                 [Call.formRef_setErrors ∅;
                  Call.formRef_setErrors
                    (getValidationErrors
                       (validation_errors sample_rEmail nameless));
                  Call.formRef_setErrors ∅;
                  Call.api_put "/profile" (formData ana);
                  Call.updateUser ana_updated;
                  Call.Alert_alert success_alert.1 success_alert.2;
                  Call.navigation_goBack] |}).
Proof.
  split; [reflexivity |]. split; [reflexivity |]. split; [reflexivity |].
  apply (handleProfile_after_invalid sample_rEmail backend_ok nameless ana
           sample_world
           {| fieldValues := ana;
              fieldErrors := {[ "name" := "Nome obrigatório" ]} |}
           ana_updated eq_refl);
    [discriminate | reflexivity | reflexivity].
Defined.

(** What one submission of valid data adds when the request resolves. *)
Lemma handleProfile_resolved_adds rEmail backend_put d w data :
  valid rEmail d ->
  backend_put "/profile" (formData d) = Resolved data ->
  ∃ w',
    handleProfile rEmail backend_put d w = (inr tt, w') ∧
    requests_of (calls w')
    = requests_of (calls w) ++ [Call.api_put "/profile" (formData d)] ∧
    alerts_of (calls w') = alerts_of (calls w) ++ [success_alert] ∧
    navigations_of (calls w')
    = navigations_of (calls w) ++ [Call.navigation_goBack] ∧
    user w' = data.
Proof.
  intros Hv Hr. eexists. split; [by apply handleProfile_resolved |].
  unfold updateUser, log.
  cbn [formRef_current user showModalUpdateAvatar calls fst snd].
  rewrite !requests_of_app, !alerts_of_app, !navigations_of_app, reset_calls.
  rewrite !requests_of_app, !alerts_of_app, !navigations_of_app.
  unfold reset_log. destruct (formRef_current w); cbn;
    by rewrite ?app_nil_r.
Qed.

(** X17. Nothing guards against a repeated submission: submitting the same
    valid data twice sends the request twice and, when both resolve, shows
    the success alert twice and navigates back twice. *)
Theorem handleProfile_twice rEmail backend_put d w data :
  valid rEmail d ->
  backend_put "/profile" (formData d) = Resolved data ->
  let w' := ((handleProfile rEmail backend_put d;;
              handleProfile rEmail backend_put d) w).2 in
  requests_of (calls w')
  = requests_of (calls w) ++
    [Call.api_put "/profile" (formData d);
     Call.api_put "/profile" (formData d)] ∧
  alerts_of (calls w')
  = alerts_of (calls w) ++ [success_alert; success_alert] ∧
  navigations_of (calls w')
  = navigations_of (calls w) ++
    [Call.navigation_goBack; Call.navigation_goBack] ∧
  user w' = data.
Proof.
  intros Hv Hr. cbv zeta.
  destruct (handleProfile_resolved_adds rEmail backend_put d w data Hv Hr)
    as (w1 & H1 & Hq1 & Ha1 & Hn1 & _).
  destruct (handleProfile_resolved_adds rEmail backend_put d w1 data Hv Hr)
    as (w2 & H2 & Hq2 & Ha2 & Hn2 & Hu2).
  assert (Hrun : (handleProfile rEmail backend_put d;;
                  handleProfile rEmail backend_put d) w = (inr tt, w2)).
  { unfold mbind, M_bind. by rewrite H1, H2. }
  rewrite Hrun. cbn [snd].
  rewrite Hq2, Ha2, Hn2, Hq1, Ha1, Hn1, <- !app_assoc. done.
Qed.

Lemma handleProfile_twice_witness :
  valid sample_rEmail ana ∧
  backend_ok "/profile" (formData ana) = Resolved ana_updated ∧
  requests_of
    (calls ((handleProfile sample_rEmail backend_ok ana;;
             handleProfile sample_rEmail backend_ok ana) sample_world).2)
  = requests_of (calls sample_world) ++
    [Call.api_put "/profile" (formData ana);
     Call.api_put "/profile" (formData ana)].
Proof.
  split; [reflexivity |]. split; [reflexivity |].
  apply (handleProfile_twice sample_rEmail backend_ok ana sample_world
           ana_updated eq_refl eq_refl).
Defined.
